(** * Auroraswap: yield metrics of a MasterChef staking contract

    A shallow embedding of [src/auroraswap.py] (class [Auroraswap]).

    Numbers.  Python's [int] is [Z].  Python's [float] is idealised as an
    exact rational ([Q]): the expression trees are the source's, rounding,
    infinities and NaN are left out.  True division raises
    [ZeroDivisionError] on a zero divisor, as it does in Python for both
    [int] and [float] operands.

    Effects.  A Python call either returns or raises: [result].  The
    remote reads behind the helper functions are deterministic functions of
    their arguments here (independent, idempotent reads); [asyncio.gather]
    is a sequential map that keeps the order of its tasks. *)

From Stdlib Require Import ZArith QArith List String Ascii Bool Lia Lqa.
Import ListNotations.

Set Implicit Arguments.

(** ** Exceptions and results *)

Inductive exn : Type :=
| ValueError
| ZeroDivisionError
| KeyError
| AttributeError
| OtherError (name : string).

Inductive result (A : Type) : Type :=
| Ok (a : A)
| Raise (e : exn).

Arguments Ok {A} a.
Arguments Raise {A} e.

Definition bind {A B : Type} (c : result A) (k : A -> result B) : result B :=
  match c with
  | Ok a => k a
  | Raise e => Raise e
  end.

Notation "x <- c ;; k" := (bind c (fun x => k))
  (at level 61, c at next level, right associativity).

(** Attribute access on an optional object: [None.attr] raises
    [AttributeError]. *)
Definition deref {A : Type} (o : option A) : result A :=
  match o with
  | Some a => Ok a
  | None => Raise AttributeError
  end.

(** [gather]: the results of the tasks in task order, or the first
    exception. *)
Fixpoint gather {A : Type} (tasks : list (result A)) : result (list A) :=
  match tasks with
  | [] => Ok []
  | t :: ts => a <- t ;; rest <- gather ts ;; Ok (a :: rest)
  end.

(** ** Numbers *)

(** Truthiness of a float: false exactly at zero. *)
Definition float_truthy (x : Q) : bool := negb (Qeq_bool x 0).

(** Truthiness of an optional float ([if weekly_apr]): false at [None] and
    at zero. *)
Definition opt_truthy (x : option Q) : bool :=
  match x with
  | Some q => float_truthy q
  | None => false
  end.

(** [a / b] on floats (and on ints, whose true division is a float). *)
Definition truediv (a b : Q) : result Q :=
  if Qeq_bool b 0 then Raise ZeroDivisionError else Ok (a / b)%Q.

(** [int(x)] on a float: truncation towards zero. *)
Definition int_of_float (x : Q) : Z := Z.quot (Qnum x) (Zpos (Qden x)).

(** [range(n)] *)
Definition range (n : Z) : list Z := map Z.of_nat (seq 0 (Z.to_nat n)).

(** ** Strings *)

Definition lower_ascii (c : ascii) : ascii :=
  let n := nat_of_ascii c in
  if andb (Nat.leb 65 n) (Nat.leb n 90) then ascii_of_nat (n + 32) else c.

(** [str.lower] *)
Fixpoint lower (s : string) : string :=
  match s with
  | EmptyString => EmptyString
  | String c s' => String (lower_ascii c) (lower s')
  end.

(** ** Dictionaries with string keys, in insertion order *)

Definition dict (V : Type) : Type := list (string * V).

(** [d[k]] *)
Fixpoint getitem {V : Type} (d : dict V) (k : string) : result V :=
  match d with
  | [] => Raise KeyError
  | (k', v) :: d' => if String.eqb k' k then Ok v else getitem d' k
  end.

(** [d.setdefault(k, v)]: a present key keeps its value, a new key goes
    last. *)
Fixpoint setdefault {V : Type} (d : dict V) (k : string) (v : V) : dict V :=
  match d with
  | [] => [(k, v)]
  | (k', v') :: d' =>
      if String.eqb k' k then (k', v') :: d' else (k', v') :: setdefault d' k v
  end.

Definition keys {V : Type} (d : dict V) : list string := map fst d.
Definition values {V : Type} (d : dict V) : list V := map snd d.

(** ** Data model *)

(** The members of [TokenTypeEnum], one per probe of [get_token]. *)
Inductive TokenTypeEnum : Type := CURVE | STABLESWAP | UNI | VAULT | ERC20.

Inductive YieldType : Type := LP_STAKE | SINGLE_STAKE.
Inductive Farm : Type := Farm_AURORASWAP.
Inductive Exchange : Type := Exchange_AURORASWAP.
Inductive Blockchain : Type := AURORA.

Module PoolToken.
Record t : Type := mk {
  symbol : string;
  address : string;
  type : TokenTypeEnum;
  tokens : list string
}.
End PoolToken.

(** What [get_erc20_metrics] and [get_uni_metrics] return, by the fields
    the source reads. *)
Module Metrics.
Record t : Type := mk {
  token0 : PoolToken.t;
  token1 : PoolToken.t;
  staked_tvl : Q
}.
End Metrics.

(** [pool_token] and [metrics] are unset ([None]) when [get_pool_info]
    builds the record. *)
Module PoolInfo.
Record t : Type := mk {
  address : string;
  alloc_points : Z;
  deposit_fee : Z;
  pool_token : option PoolToken.t;
  metrics : option Metrics.t
}.
Definition set_pool_token (p : t) (tok : PoolToken.t) : t :=
  mk (address p) (alloc_points p) (deposit_fee p) (Some tok) (metrics p).
Definition set_metrics (p : t) (m : option Metrics.t) : t :=
  mk (address p) (alloc_points p) (deposit_fee p) (pool_token p) m.
End PoolInfo.

Module MasterChefData.
Record t : Type := mk {
  rewards_per_week : Q;
  pool_count : Z;
  total_alloc_points : Z;
  reward_token_address : string
}.
End MasterChefData.

Module TokenInfo.
Record t : Type := mk {
  token_a : string;
  token_b : string;
  reward_token_a : string;
  reward_token_b : string;
  token_a_address : string;
  token_b_address : string
}.
End TokenInfo.

Module AprInfo.
Record t : Type := mk {
  apr_yearly : option Q;
  apr_weekly : option Q;
  apr_daily : option Q;
  apy_yearly : option Q;
  fee_apr_yearly : option Q;
  reward_token_a_apr_yearly : option Q;
  reward_token_b_apr_yearly : Z
}.
End AprInfo.

Module PoolLinks.
Record t : Type := mk {
  investment_link : string;
  staking_link : string
}.
End PoolLinks.

Module PoolFees.
Record t : Type := mk {
  deposit_fee : Z;
  withdraw_fee : Z;
  harvest_lockup : bool;
  harvest_lockup_info : string;
  transfer_tax : bool;
  transfer_tax_info : string;
  anti_whale : Z
}.
End PoolFees.

Module SinglePool.
Record t : Type := mk {
  asset : string;
  tvl_staked : option Z;
  date_added : string;
  other_pool_economics_infos : string;
  asset_address : string;
  audit_info : string;
  yield_type : YieldType;
  token_info : TokenInfo.t;
  apr_info : AprInfo.t;
  pool_links : PoolLinks.t;
  fees : PoolFees.t
}.
End SinglePool.

Module FarmUpdate.
Record t : Type := mk {
  active : bool;
  farm_id : Farm;
  url : string;
  blockchain : Blockchain;
  exchange_name : Exchange;
  exchange_url : string;
  pool : SinglePool.t
}.
End FarmUpdate.

(** The view functions of the MasterChef contract, and the chain height
    ([len(chain)]). *)
Module Contract.
Record t : Type := mk {
  address : string;
  chain_length : Z;
  getMultiplier : Z -> Z -> Z;
  BRLPerBlock : Z;
  poolLength : Z;
  totalAllocPoint : Z;
  BRL : string;
  poolInfo : Z -> string * Z * Z * Z * Z
}.
End Contract.

(** The helper functions the module imports
    ([multifarm_masterchef.helpers], [multifarm_masterchef.aurora.helpers])
    and [FarmUpdate.format_for_db]: their code is not part of this file, the
    class is their interface. *)
Class Helpers : Type := {
  DbRow : Type;
  format_for_db : FarmUpdate.t -> DbRow;
  calculate_apy : Q -> Q;
  get_curve_info : string -> string -> result PoolToken.t;
  get_stableswap_info : string -> string -> result PoolToken.t;
  get_uni_info : string -> string -> result PoolToken.t;
  get_harvest_vault_info : string -> string -> result PoolToken.t;
  get_erc20_info : string -> string -> result PoolToken.t;
  get_erc20_metrics : dict Q -> PoolToken.t -> result (option Metrics.t);
  get_uni_metrics :
    dict PoolToken.t -> dict Q -> PoolToken.t -> result (option Metrics.t)
}.

(** The instance state of [Auroraswap]. *)
Module Self.
Record t : Type := mk {
  contract : Contract.t;
  prices : dict Q;
  tokens : dict PoolToken.t
}.
End Self.

(** ** Class constants *)

Definition FARM_URL : string := "https://app.auroraswap.net/".
Definition FARM_ID : Farm := Farm_AURORASWAP.
Definition EXCHANGE_NAME : Exchange := Exchange_AURORASWAP.
Definition EXCHANGE_URL : string := "https://app.auroraswap.net/".
Definition BLOCKCHAIN : Blockchain := AURORA.
Definition ACTIVE : bool := true.
Definition REWARD_TOKEN_TICKER : string := "BRL".
Definition REWARD_TOKEN_ADDRESS : string :=
  "0x12c87331f086c3c926248f964f8702c0842fd77f".
Definition POOLS_LINK : string := "https://app.auroraswap.net/pools".
Definition FARMS_LINK : string := "https://app.auroraswap.net/farms".

(** ** The probes of [get_token], and the log of the ones attempted *)

Inductive Probe : Type :=
| ProbeCurve
| ProbeStableswap
| ProbeUni
| ProbeVault
| ProbeErc20.

(** A computation together with the probes it called, in call order. *)
Definition traced (A : Type) : Type := (list Probe * result A)%type.

Definition call {A : Type} (p : Probe) (r : result A) : traced A := ([p], r).

(** [try: info = body; return info / except ValueError: pass], followed by
    [rest]: the body's value is the function's value, a [ValueError] goes on
    to [rest], any other exception leaves the function. *)
Definition try_return {A : Type} (body : traced A) (rest : traced (option A))
  : traced (option A) :=
  match body with
  | (tr, Ok a) => (tr, Ok (Some a))
  | (tr, Raise ValueError) => (tr ++ fst rest, snd rest)
  | (tr, Raise e) => (tr, Raise e)
  end.

(** The order the source writes its five [try] blocks in. *)
Definition probe_order : list Probe :=
  [ProbeCurve; ProbeStableswap; ProbeUni; ProbeVault; ProbeErc20].

Section Auroraswap.

Context {helpers : Helpers}.

(** The helper a probe stands for. *)
Definition run_probe (p : Probe) (address staking_address : string)
  : result PoolToken.t :=
  match p with
  | ProbeCurve => get_curve_info address staking_address
  | ProbeStableswap => get_stableswap_info address staking_address
  | ProbeUni => get_uni_info address staking_address
  | ProbeVault => get_harvest_vault_info address staking_address
  | ProbeErc20 => get_erc20_info address staking_address
  end.

(** [Auroraswap.get_token].  Falling off the end of the function returns
    [None]. *)
Definition get_token (address staking_address : string)
  : traced (option PoolToken.t) :=
  try_return (call ProbeCurve (get_curve_info address staking_address))
  (try_return (call ProbeStableswap (get_stableswap_info address staking_address))
  (try_return (call ProbeUni (get_uni_info address staking_address))
  (try_return (call ProbeVault (get_harvest_vault_info address staking_address))
  (try_return (call ProbeErc20 (get_erc20_info address staking_address))
  ([], Ok None))))).

(** [Auroraswap.get_masterchef_data] *)
Definition get_masterchef_data (self : Self.t) : MasterChefData.t :=
  let c := Self.contract self in
  let current_block := Contract.chain_length c in
  let multiplier := Contract.getMultiplier c current_block (current_block + 1) in
  let rewards_per_week :=
    (inject_Z (Contract.BRLPerBlock c) / (10 ^ 18) * inject_Z multiplier
     * 604800 / (11 # 10))%Q in
  let pool_count := Contract.poolLength c in
  let total_alloc_points := Contract.totalAllocPoint c in
  let reward_token_address := Contract.BRL c in
  MasterChefData.mk rewards_per_week pool_count total_alloc_points
    (lower reward_token_address).

(** [Auroraswap.get_pool_info] *)
Definition get_pool_info (self : Self.t) (pool_index : Z) : PoolInfo.t :=
  let '(lp_token, alloc_points, last_reward_block, acc_brl_per_share, deposit_fee) :=
    Contract.poolInfo (Self.contract self) pool_index in
  PoolInfo.mk lp_token alloc_points deposit_fee None None.

(** [pool_infos[token_info.address].pool_token = token_info] *)
Fixpoint assign_pool_token (pool_infos : dict PoolInfo.t) (tok : PoolToken.t)
  : result (dict PoolInfo.t) :=
  match pool_infos with
  | [] => Raise KeyError
  | (k, p) :: d =>
      if String.eqb k (PoolToken.address tok)
      then Ok ((k, PoolInfo.set_pool_token p tok) :: d)
      else d' <- assign_pool_token d tok ;; Ok ((k, p) :: d')
  end.

(** The second loop of [get_pools_info]; a [None] among the tokens raises
    [AttributeError] at [token_info.address]. *)
Fixpoint assign_pool_tokens (pool_infos : dict PoolInfo.t)
  (tokens_infos : list (option PoolToken.t)) : result (dict PoolInfo.t) :=
  match tokens_infos with
  | [] => Ok pool_infos
  | token_info :: rest =>
      tok <- deref token_info ;;
      pool_infos' <- assign_pool_token pool_infos tok ;;
      assign_pool_tokens pool_infos' rest
  end.

(** The first loop of [get_pools_info]. *)
Definition collect_pools (pools : list PoolInfo.t) : dict PoolInfo.t :=
  fold_left (fun pool_infos pool => setdefault pool_infos (PoolInfo.address pool) pool)
    pools [].

(** [Auroraswap.get_pools_info] *)
Definition get_pools_info (self : Self.t) (pool_count : Z)
  : result (list PoolInfo.t) :=
  let pools := map (get_pool_info self) (range pool_count) in
  let pool_infos := collect_pools pools in
  tokens_infos <-
    gather (map (fun addr =>
                   snd (get_token addr (Contract.address (Self.contract self))))
              (keys pool_infos)) ;;
  pool_infos' <- assign_pool_tokens pool_infos tokens_infos ;;
  Ok (values pool_infos').

(** [Auroraswap.get_pool_metrics]: two [if]s in a row, each reading
    [pool.pool_token.type]. *)
Definition get_pool_metrics (self : Self.t) (pool : PoolInfo.t)
  : result PoolInfo.t :=
  pool_token <- deref (PoolInfo.pool_token pool) ;;
  pool <-
    match PoolToken.type pool_token with
    | ERC20 =>
        metrics <- get_erc20_metrics (Self.prices self) pool_token ;;
        Ok (PoolInfo.set_metrics pool metrics)
    | _ => Ok pool
    end ;;
  pool_token <- deref (PoolInfo.pool_token pool) ;;
  match PoolToken.type pool_token with
  | UNI =>
      metrics <- get_uni_metrics (Self.tokens self) (Self.prices self) pool_token ;;
      Ok (PoolInfo.set_metrics pool metrics)
  | _ => Ok pool
  end.

(** [Auroraswap._get_uni_pool_info] *)
Definition _get_uni_pool_info (self : Self.t) (pool_info : PoolInfo.t)
  (masterchef_data : MasterChefData.t) : result FarmUpdate.t :=
  metrics <- deref (PoolInfo.metrics pool_info) ;;
  let a_token := Metrics.token0 metrics in
  let b_token := Metrics.token1 metrics in
  share <- truediv (inject_Z (PoolInfo.alloc_points pool_info))
             (inject_Z (MasterChefData.total_alloc_points masterchef_data)) ;;
  let pool_rewards_per_week :=
    (share * MasterChefData.rewards_per_week masterchef_data)%Q in
  reward_price <- getitem (Self.prices self) (lower REWARD_TOKEN_ADDRESS) ;;
  let usd_per_week := (pool_rewards_per_week * reward_price)%Q in
  per_tvl <- truediv usd_per_week (Metrics.staked_tvl metrics) ;;
  let weekly_apr := (per_tvl * 100)%Q in
  let daily_apr := (weekly_apr / 7)%Q in
  let yearly_apr := (weekly_apr * 52)%Q in
  let token_info :=
    TokenInfo.mk (PoolToken.symbol a_token) (PoolToken.symbol b_token)
      REWARD_TOKEN_TICKER "" (PoolToken.address a_token)
      (PoolToken.address b_token) in
  let apr_info :=
    AprInfo.mk (Some yearly_apr) (Some weekly_apr) (Some daily_apr)
      (Some (calculate_apy yearly_apr)) (Some yearly_apr) (Some yearly_apr) 0 in
  let pool_links := PoolLinks.mk POOLS_LINK POOLS_LINK in
  let fees :=
    PoolFees.mk (PoolInfo.deposit_fee pool_info) 0 false "" false "" 0 in
  pool_token <- deref (PoolInfo.pool_token pool_info) ;;
  let pool :=
    SinglePool.mk (PoolToken.symbol pool_token)
      (Some (int_of_float (Metrics.staked_tvl metrics)))
      "01/01/2021" "" (PoolToken.address pool_token) "" LP_STAKE
      token_info apr_info pool_links fees in
  Ok (FarmUpdate.mk ACTIVE FARM_ID FARM_URL BLOCKCHAIN EXCHANGE_NAME
        EXCHANGE_URL pool).

(** [Auroraswap._get_single_pool_info].  The guards [if weekly_apr] and
    [if yearly_apr] test truthiness. *)
Definition _get_single_pool_info (self : Self.t) (pool_info : PoolInfo.t)
  (masterchef_data : MasterChefData.t) : result FarmUpdate.t :=
  let a_token := PoolInfo.pool_token pool_info in
  share <- truediv (inject_Z (PoolInfo.alloc_points pool_info))
             (inject_Z (MasterChefData.total_alloc_points masterchef_data)) ;;
  let pool_rewards_per_week :=
    (share * MasterChefData.rewards_per_week masterchef_data)%Q in
  reward_price <- getitem (Self.prices self) (lower REWARD_TOKEN_ADDRESS) ;;
  let usd_per_week := (pool_rewards_per_week * reward_price)%Q in
  weekly_apr <-
    match PoolInfo.metrics pool_info with
    | Some metrics =>
        per_tvl <- truediv usd_per_week (Metrics.staked_tvl metrics) ;;
        Ok (Some (per_tvl * 100)%Q)
    | None => Ok None
    end ;;
  let daily_apr :=
    if opt_truthy weekly_apr
    then option_map (fun w => (w / 7)%Q) weekly_apr else None in
  let yearly_apr :=
    if opt_truthy weekly_apr
    then option_map (fun w => (w * 52)%Q) weekly_apr else None in
  a_token <- deref a_token ;;
  let token_info :=
    TokenInfo.mk (PoolToken.symbol a_token) "" REWARD_TOKEN_TICKER ""
      (PoolToken.address a_token) "" in
  let apr_info :=
    AprInfo.mk yearly_apr weekly_apr daily_apr
      (if opt_truthy yearly_apr then option_map calculate_apy yearly_apr else None)
      yearly_apr yearly_apr 0 in
  let pool_links := PoolLinks.mk POOLS_LINK POOLS_LINK in
  let fees :=
    PoolFees.mk (PoolInfo.deposit_fee pool_info) 0 false "" false "" 0 in
  let pool :=
    SinglePool.mk (PoolToken.symbol a_token)
      (option_map (fun m => int_of_float (Metrics.staked_tvl m))
         (PoolInfo.metrics pool_info))
      "01/01/2021" "" (PoolToken.address a_token) "" SINGLE_STAKE
      token_info apr_info pool_links fees in
  Ok (FarmUpdate.mk ACTIVE FARM_ID FARM_URL BLOCKCHAIN EXCHANGE_NAME
        EXCHANGE_URL pool).

(** The body of the loop of [calculate_supply_aprs]: the [farm_update] of
    one pool. *)
Definition farm_update_of (self : Self.t) (pool_info : PoolInfo.t)
  (masterchef_data : MasterChefData.t) : result (option FarmUpdate.t) :=
  pool_token <- deref (PoolInfo.pool_token pool_info) ;;
  match PoolToken.type pool_token with
  | UNI =>
      match PoolInfo.metrics pool_info with
      | Some _ =>
          fu <- _get_uni_pool_info self pool_info masterchef_data ;; Ok (Some fu)
      | None => Ok None
      end
  | ERC20 =>
      match PoolInfo.metrics pool_info with
      | Some _ =>
          fu <- _get_single_pool_info self pool_info masterchef_data ;; Ok (Some fu)
      | None => Ok None
      end
  | _ => Ok None
  end.

(** The loop of [calculate_supply_aprs], from the rows appended so far. *)
Fixpoint supply_aprs_loop (self : Self.t) (pools : list PoolInfo.t)
  (masterchef_data : MasterChefData.t) (pools_for_db : list DbRow)
  : result (list DbRow) :=
  match pools with
  | [] => Ok pools_for_db
  | pool_info :: rest =>
      farm_update <- farm_update_of self pool_info masterchef_data ;;
      supply_aprs_loop self rest masterchef_data
        match farm_update with
        | Some fu => pools_for_db ++ [format_for_db fu]
        | None => pools_for_db
        end
  end.

(** [Auroraswap.calculate_supply_aprs] *)
Definition calculate_supply_aprs (self : Self.t) (pools : list PoolInfo.t)
  (masterchef_data : MasterChefData.t) : result (list DbRow) :=
  supply_aprs_loop self pools masterchef_data [].

(** The chain of [try] blocks of [get_token] over a list of probes;
    [get_token] is this chain over [probe_order]. *)
Fixpoint try_probes (ps : list Probe) (address staking_address : string)
  : traced (option PoolToken.t) :=
  match ps with
  | [] => ([], Ok None)
  | p :: ps' =>
      try_return (call p (run_probe p address staking_address))
        (try_probes ps' address staking_address)
  end.

(** The first loop of [get_tokens]: the underlying token addresses of the
    pools that have a token, in pool order. *)
Definition underlying_addresses (pools : list PoolInfo.t) : list string :=
  fold_left (fun tokens_addresses pool =>
               match PoolInfo.pool_token pool with
               | Some pool_token => tokens_addresses ++ PoolToken.tokens pool_token
               | None => tokens_addresses
               end)
    pools [].

(** The last loop of [get_tokens]:
    [tokens.setdefault(token_info.address.lower(), token_info)]. *)
Fixpoint index_tokens (tokens : dict PoolToken.t)
  (tokens_infos : list (option PoolToken.t)) : result (dict PoolToken.t) :=
  match tokens_infos with
  | [] => Ok tokens
  | token_info :: rest =>
      tok <- deref token_info ;;
      index_tokens (setdefault tokens (lower (PoolToken.address tok)) tok) rest
  end.

(** [Auroraswap.get_tokens].  [list(set(xs))] lists the distinct elements
    of [xs] in an order the language leaves open; [list_of_set] is that
    listing. *)
Definition get_tokens (list_of_set : list string -> list string)
  (self : Self.t) (pools : list PoolInfo.t) : result (dict PoolToken.t) :=
  let tokens_addresses := underlying_addresses pools in
  let tokens_addresses := list_of_set tokens_addresses in
  tokens_infos <-
    gather (map (fun addr =>
                   snd (get_token addr (Contract.address (Self.contract self))))
              tokens_addresses) ;;
  index_tokens [] tokens_infos.

(** [Auroraswap.get_pools]: the pools, and the instance with [self.tokens]
    assigned. *)
Definition get_pools (list_of_set : list string -> list string) (self : Self.t)
  : result (Self.t * list PoolInfo.t) :=
  let masterchef_data := get_masterchef_data self in
  pools <- get_pools_info self (MasterChefData.pool_count masterchef_data) ;;
  tokens <- get_tokens list_of_set self pools ;;
  let self := Self.mk (Self.contract self) (Self.prices self) tokens in
  pools <- gather (map (get_pool_metrics self) pools) ;;
  Ok (self, pools).

(** The script at the end of the module, from the instance on: the pools
    and the rows it prints. *)
Definition main (list_of_set : list string -> list string) (auroraswap : Self.t)
  : result (list PoolInfo.t * list DbRow) :=
  let masterchef_data := get_masterchef_data auroraswap in
  got <- get_pools list_of_set auroraswap ;;
  let auroraswap := fst got in
  let pools := snd got in
  rows <- calculate_supply_aprs auroraswap pools masterchef_data ;;
  Ok (pools, rows).

End Auroraswap.

(** ** A concrete chain state, for running the definitions *)

Module Sample.

Local Open Scope string_scope.

Definition tok_lp : PoolToken.t :=
  PoolToken.mk "BRL-WETH LP" "0xaa" UNI ["0x11"; "0x22"].
Definition tok_brl : PoolToken.t := PoolToken.mk "BRL" "0xbb" ERC20 [].
Definition tok_weth : PoolToken.t := PoolToken.mk "WETH" "0x22" ERC20 [].

(** "0xaa" is a pair, "0xbb" a plain token, "0xcc" matches no probe, and
    the node fails on "0xdd" with an exception that is not a [ValueError]. *)
Definition helpers : Helpers := {|
  DbRow := FarmUpdate.t;
  format_for_db := fun fu => fu;
  calculate_apy := fun apr => (((1 + apr / 200) ^ 2 - 1) * 100)%Q;
  get_curve_info := fun a _ =>
    if String.eqb a "0xdd" then Raise (OtherError "ContractNotFound")
    else Raise ValueError;
  get_stableswap_info := fun _ _ => Raise ValueError;
  get_uni_info := fun a _ =>
    if String.eqb a "0xaa" then Ok tok_lp else Raise ValueError;
  get_harvest_vault_info := fun _ _ => Raise ValueError;
  get_erc20_info := fun a _ =>
    if String.eqb a "0xbb" then Ok tok_brl else Raise ValueError;
  get_erc20_metrics := fun _ tok => Ok (Some (Metrics.mk tok tok 2000));
  get_uni_metrics := fun _ _ _ => Ok (Some (Metrics.mk tok_brl tok_weth 1000))
|}.

Definition contract : Contract.t := {|
  Contract.address := "0xmc";
  Contract.chain_length := 100;
  Contract.getMultiplier := fun a b => (b - a)%Z;
  Contract.BRLPerBlock := (11 * 10 ^ 17)%Z;
  Contract.poolLength := 3;
  Contract.totalAllocPoint := 40;
  Contract.BRL := "0x12C87331F086c3C926248f964f8702C0842Fd77F";
  Contract.poolInfo := fun i =>
    if Z.eqb i 0 then ("0xaa", 30, 0, 0, 0)%Z
    else if Z.eqb i 1 then ("0xbb", 10, 0, 0, 4)%Z
    else ("0xaa", 5, 0, 0, 0)%Z
|}.

Definition self : Self.t :=
  Self.mk contract [(lower REWARD_TOKEN_ADDRESS, 1 # 2)] [].

Definition md : MasterChefData.t := get_masterchef_data self.

Definition pool_lp : PoolInfo.t :=
  PoolInfo.mk "0xaa" 30 0 (Some tok_lp)
    (Some (Metrics.mk tok_brl tok_weth 1000)).
Definition pool_brl : PoolInfo.t :=
  PoolInfo.mk "0xbb" 10 4 (Some tok_brl) (Some (Metrics.mk tok_brl tok_brl 2000)).
(** A single-token pool with no allocation points. *)
Definition pool_idle : PoolInfo.t :=
  PoolInfo.mk "0xbb" 0 4 (Some tok_brl) (Some (Metrics.mk tok_brl tok_brl 2000)).
(** Pools nobody has staked in. *)
Definition pool_empty : PoolInfo.t :=
  PoolInfo.mk "0xbb" 10 4 (Some tok_brl) (Some (Metrics.mk tok_brl tok_brl 0)).
(** A single-token pool whose metrics were not fetched. *)
Definition pool_unmeasured : PoolInfo.t :=
  PoolInfo.mk "0xbb" 10 4 (Some tok_brl) None.
(** A pool on a token of a type the APR computation has no case for. *)
Definition tok_3pool : PoolToken.t := PoolToken.mk "3pool" "0xee" CURVE [].
Definition pool_curve : PoolInfo.t :=
  PoolInfo.mk "0xee" 5 0 (Some tok_3pool) None.
(** A pool whose token [get_token] could not classify. *)
Definition pool_unclassified : PoolInfo.t := PoolInfo.mk "0xcc" 10 0 None None.

(** A contract whose second pool stakes the token no probe matches. *)
Definition contract_cc : Contract.t := {|
  Contract.address := "0xmc";
  Contract.chain_length := 100;
  Contract.getMultiplier := fun a b => (b - a)%Z;
  Contract.BRLPerBlock := (11 * 10 ^ 17)%Z;
  Contract.poolLength := 2;
  Contract.totalAllocPoint := 40;
  Contract.BRL := "0x12C87331F086c3C926248f964f8702C0842Fd77F";
  Contract.poolInfo := fun i =>
    if Z.eqb i 0 then ("0xaa", 30, 0, 0, 0)%Z else ("0xcc", 10, 0, 0, 0)%Z
|}.

Definition self_cc : Self.t :=
  Self.mk contract_cc [(lower REWARD_TOKEN_ADDRESS, 1 # 2)] [].

(** A chain on which every underlying token is classified too. *)
Definition tok_dai : PoolToken.t := PoolToken.mk "DAI" "0x11" ERC20 [].

Definition helpers_full : Helpers := {|
  DbRow := FarmUpdate.t;
  format_for_db := fun fu => fu;
  calculate_apy := fun apr => (((1 + apr / 200) ^ 2 - 1) * 100)%Q;
  get_curve_info := fun _ _ => Raise ValueError;
  get_stableswap_info := fun _ _ => Raise ValueError;
  get_uni_info := fun a _ =>
    if String.eqb a "0xaa" then Ok tok_lp else Raise ValueError;
  get_harvest_vault_info := fun _ _ => Raise ValueError;
  get_erc20_info := fun a _ =>
    if String.eqb a "0xbb" then Ok tok_brl
    else if String.eqb a "0x11" then Ok tok_dai
    else if String.eqb a "0x22" then Ok tok_weth
    else Raise ValueError;
  get_erc20_metrics := fun _ tok => Ok (Some (Metrics.mk tok tok 2000));
  get_uni_metrics := fun _ _ _ => Ok (Some (Metrics.mk tok_dai tok_weth (2001 # 2)))
|}.

(** A listing of a set: first occurrences, in order. *)
Definition list_of_set (l : list string) : list string :=
  rev (nodup string_dec (rev l)).

(** The instance and the pools after [get_pools] on that chain. *)
Definition self_full : Self.t :=
  Self.mk contract [(lower REWARD_TOKEN_ADDRESS, 1 # 2)]
    [("0x11", tok_dai); ("0x22", tok_weth)].
Definition pool_lp_full : PoolInfo.t :=
  PoolInfo.mk "0xaa" 30 0 (Some tok_lp)
    (Some (Metrics.mk tok_dai tok_weth (2001 # 2))).

(** Helpers whose ERC20 probe answers for "0xaa" and for "0xbb" with the
    same token, the one at "0xbb". *)
Definition helpers_alias : Helpers := {|
  DbRow := FarmUpdate.t;
  format_for_db := fun fu => fu;
  calculate_apy := fun apr => (((1 + apr / 200) ^ 2 - 1) * 100)%Q;
  get_curve_info := fun _ _ => Raise ValueError;
  get_stableswap_info := fun _ _ => Raise ValueError;
  get_uni_info := fun _ _ => Raise ValueError;
  get_harvest_vault_info := fun _ _ => Raise ValueError;
  get_erc20_info := fun a _ =>
    if orb (String.eqb a "0xaa") (String.eqb a "0xbb") then Ok tok_brl
    else Raise ValueError;
  get_erc20_metrics := fun _ tok => Ok (Some (Metrics.mk tok tok 2000));
  get_uni_metrics := fun _ _ _ => Ok None
|}.

(** Master-chef data of a contract without allocation points. *)
Definition md_no_alloc : MasterChefData.t := MasterChefData.mk 604800 3 0 "0x12".

End Sample.

(** * Properties *)

(** ** Arithmetic and result lemmas *)

Lemma truediv_ok (a b : Q) : ~ b == 0 -> truediv a b = Ok (a / b).
Proof.
  intros Hb. unfold truediv.
  destruct (Qeq_bool b 0) eqn:E; [|reflexivity].
  apply Qeq_bool_iff in E. contradiction.
Qed.

Lemma truediv_zero (a b : Q) : b == 0 -> truediv a b = Raise ZeroDivisionError.
Proof.
  intros Hb. unfold truediv.
  apply Qeq_bool_iff in Hb. rewrite Hb. reflexivity.
Qed.

Lemma truediv_inv (a b q : Q) : truediv a b = Ok q -> ~ b == 0 /\ q = (a / b)%Q.
Proof.
  unfold truediv. destruct (Qeq_bool b 0) eqn:E; [discriminate|].
  intros H. inversion H. split; [|reflexivity].
  intros Hb. apply Qeq_bool_iff in Hb. congruence.
Qed.

Lemma inject_Z_nonzero (z : Z) : z <> 0%Z -> ~ inject_Z z == 0.
Proof.
  intros Hz H. apply Hz. unfold Qeq in H. simpl in H. lia.
Qed.

Lemma float_truthy_true (x : Q) : float_truthy x = true <-> ~ x == 0.
Proof.
  unfold float_truthy. rewrite negb_true_iff.
  split.
  - intros E H. apply Qeq_bool_iff in H. congruence.
  - intros H. destruct (Qeq_bool x 0) eqn:E; [|reflexivity].
    apply Qeq_bool_iff in E. contradiction.
Qed.

Lemma float_truthy_false (x : Q) : float_truthy x = false <-> x == 0.
Proof.
  unfold float_truthy. rewrite negb_false_iff. apply Qeq_bool_iff.
Qed.

Lemma float_truthy_scale (x k : Q) :
  ~ k == 0 -> float_truthy (x * k) = float_truthy x.
Proof.
  intros Hk. destruct (float_truthy x) eqn:E.
  - apply float_truthy_true. apply float_truthy_true in E.
    intros H. apply Qmult_integral in H. tauto.
  - apply float_truthy_false. apply float_truthy_false in E.
    rewrite E. ring.
Qed.

Lemma bind_ok_inv {A B : Type} (c : result A) (k : A -> result B) (b : B) :
  bind c k = Ok b -> exists a, c = Ok a /\ k a = Ok b.
Proof.
  destruct c as [a|e]; simpl; [eauto | discriminate].
Qed.

(** ** The probe chain of [get_token] *)

Section GetToken.

Context {helpers : Helpers}.
Variables address staking_address : string.

Local Abbreviation probe p := (run_probe p address staking_address).
Local Abbreviation chain ps := (try_probes ps address staking_address).

Lemma get_token_chain :
  get_token address staking_address = chain probe_order.
Proof. reflexivity. Qed.

(** The probes that raised [ValueError] are all in the log, and the chain
    goes on behind them. *)
Lemma try_probes_skip (pre rest : list Probe) :
  (forall q, In q pre -> probe q = Raise ValueError) ->
  chain (pre ++ rest) = (pre ++ fst (chain rest), snd (chain rest)).
Proof.
  induction pre as [|p pre IH]; intros Hpre; simpl.
  - destruct (chain rest); reflexivity.
  - rewrite (Hpre p (or_introl eq_refl)). simpl.
    rewrite IH by (intros q Hq; apply Hpre; right; exact Hq).
    reflexivity.
Qed.

(** A probe that does not raise [ValueError] ends the chain. *)
Lemma try_probes_stop (p : Probe) (post : list Probe) :
  probe p <> Raise ValueError ->
  chain (p :: post) =
  ([p], match probe p with Ok info => Ok (Some info) | Raise e => Raise e end).
Proof.
  intros Hp. simpl. unfold call, try_return.
  destruct (probe p) as [info|e]; [reflexivity|].
  destruct e; solve [reflexivity | congruence].
Qed.

(** The log is an initial segment of the list of probes. *)
Lemma try_probes_log_prefix (ps : list Probe) :
  exists n, (n <= List.length ps)%nat /\ fst (chain ps) = firstn n ps /\
            (ps <> [] -> (1 <= n)%nat).
Proof.
  induction ps as [|p ps IH]; simpl.
  - exists 0%nat. repeat split; auto; congruence.
  - destruct IH as (n & Hn & Hlog & _).
    destruct (probe p) as [info|e]; simpl.
    + exists 1%nat. repeat split; auto; lia.
    + destruct e; simpl;
        try (exists 1%nat; repeat split; auto; lia).
      exists (S n). rewrite Hlog. repeat split; auto; lia.
Qed.

(** The chain never lets a [ValueError] out. *)
Lemma try_probes_no_ValueError (ps : list Probe) :
  snd (chain ps) <> Raise ValueError.
Proof.
  induction ps as [|p ps IH]; simpl; [discriminate|].
  destruct (probe p) as [info|e]; simpl; [discriminate|].
  destruct e; simpl; solve [discriminate | exact IH].
Qed.

(** A value of the chain is the value of the last probe in the log, and
    the probes before it raised [ValueError]. *)
Lemma try_probes_value (ps : list Probe) (info : PoolToken.t) :
  snd (chain ps) = Ok (Some info) ->
  exists pre p post,
    ps = pre ++ p :: post /\ fst (chain ps) = pre ++ [p] /\
    probe p = Ok info /\ forall q, In q pre -> probe q = Raise ValueError.
Proof.
  induction ps as [|p ps IH]; simpl; [discriminate|].
  destruct (probe p) as [i|e] eqn:Ep; simpl.
  - intros H. inversion H; subst i.
    exists [], p, ps. repeat split; auto. intros q [].
  - destruct e; simpl; try discriminate.
    intros H. destruct (IH H) as (pre & p' & post & Hps & Hlog & Hp' & Hpre).
    exists (p :: pre), p', post. subst ps. rewrite Hlog.
    repeat split; auto.
    intros q [Hq|Hq]; [subst q; exact Ep | apply Hpre; exact Hq].
Qed.

(** C2: [get_token] attempts the probes in the fixed order curve,
    stableswap, uniswap, vault, ERC20: its log is a non-empty initial
    segment of that list.  It returns the result of the first probe that
    succeeds, the log ending at that probe (no later probe is attempted);
    and whatever it returns was returned by the last probe of the log, all
    probes before it having failed with [ValueError]. *)
Theorem get_token_first_success :
  (exists n, (1 <= n <= 5)%nat /\
     fst (get_token address staking_address) = firstn n probe_order) /\
  (forall pre p post info,
     probe_order = pre ++ p :: post ->
     (forall q, In q pre -> probe q = Raise ValueError) ->
     probe p = Ok info ->
     get_token address staking_address = (pre ++ [p], Ok (Some info))) /\
  (forall info,
     snd (get_token address staking_address) = Ok (Some info) ->
     exists pre p post,
       probe_order = pre ++ p :: post /\
       fst (get_token address staking_address) = pre ++ [p] /\
       probe p = Ok info /\
       forall q, In q pre -> probe q = Raise ValueError).
Proof.
  rewrite get_token_chain. split; [|split].
  - destruct (try_probes_log_prefix probe_order) as (n & Hn & Hlog & Hpos).
    exists n. split; [|exact Hlog].
    split; [apply Hpos; discriminate | exact Hn].
  - intros pre p post info Horder Hpre Hp.
    rewrite Horder, (try_probes_skip pre (p :: post) Hpre).
    rewrite try_probes_stop by (rewrite Hp; discriminate).
    rewrite Hp. reflexivity.
  - intros info. apply try_probes_value.
Qed.

(** C6, as the code has it: a probe's [ValueError] is absorbed.
    [get_token] goes on with the probes behind it ([None] when there is
    none left) and never raises [ValueError]; an exception of any other
    kind, raised by an attempted probe, ends the chain and reaches the
    caller. *)
Theorem get_token_absorbs_ValueError :
  snd (get_token address staking_address) <> Raise ValueError /\
  (forall pre p post,
     probe_order = pre ++ p :: post ->
     (forall q, In q pre -> probe q = Raise ValueError) ->
     probe p = Raise ValueError ->
     get_token address staking_address =
     (pre ++ p :: fst (chain post), snd (chain post))) /\
  ((forall q, In q probe_order -> probe q = Raise ValueError) ->
   get_token address staking_address = (probe_order, Ok None)) /\
  (forall pre p post e,
     probe_order = pre ++ p :: post ->
     (forall q, In q pre -> probe q = Raise ValueError) ->
     probe p = Raise e -> e <> ValueError ->
     get_token address staking_address = (pre ++ [p], Raise e)).
Proof.
  rewrite get_token_chain. split; [|split; [|split]].
  - apply try_probes_no_ValueError.
  - intros pre p post Horder Hpre Hp.
    rewrite Horder.
    replace (pre ++ p :: post) with ((pre ++ [p]) ++ post)
      by (rewrite <- app_assoc; reflexivity).
    rewrite try_probes_skip.
    + rewrite <- app_assoc. reflexivity.
    + intros q Hq. apply in_app_or in Hq.
      destruct Hq as [Hq|[Hq|[]]]; [apply Hpre; exact Hq | subst q; exact Hp].
  - intros Hall.
    rewrite <- (app_nil_r probe_order) at 1.
    rewrite (try_probes_skip probe_order [] Hall). reflexivity.
  - intros pre p post e Horder Hpre Hp He.
    rewrite Horder, (try_probes_skip pre (p :: post) Hpre).
    rewrite try_probes_stop by (rewrite Hp; congruence).
    rewrite Hp. reflexivity.
Qed.

End GetToken.

(** ** The APR records *)

Section SupplyAprs.

Context {helpers : Helpers}.
Variable self : Self.t.
Variable masterchef_data : MasterChefData.t.

Local Open Scope Q_scope.

Local Abbreviation total_alloc_points :=
  (MasterChefData.total_alloc_points masterchef_data).
Local Abbreviation rewards_per_week :=
  (MasterChefData.rewards_per_week masterchef_data).
Local Abbreviation price_of_reward :=
  (getitem (Self.prices self) (lower REWARD_TOKEN_ADDRESS)).
Local Abbreviation aprs fu := (SinglePool.apr_info (FarmUpdate.pool fu)).

(** The weekly APR as the source computes it, operation by operation. *)
Local Abbreviation weekly_apr_of pool_info reward_price metrics :=
  (inject_Z (PoolInfo.alloc_points pool_info) / inject_Z total_alloc_points
   * rewards_per_week * reward_price / Metrics.staked_tvl metrics * 100).

(** What a returned record of [_get_uni_pool_info] holds. *)
Lemma uni_pool_info_inv (pool_info : PoolInfo.t) (fu : FarmUpdate.t) :
  _get_uni_pool_info self pool_info masterchef_data = Ok fu ->
  exists metrics reward_price pool_token,
    PoolInfo.metrics pool_info = Some metrics /\
    price_of_reward = Ok reward_price /\
    PoolInfo.pool_token pool_info = Some pool_token /\
    ~ inject_Z total_alloc_points == 0 /\
    ~ Metrics.staked_tvl metrics == 0 /\
    SinglePool.asset_address (FarmUpdate.pool fu) = PoolToken.address pool_token /\
    let weekly_apr := weekly_apr_of pool_info reward_price metrics in
    aprs fu =
    AprInfo.mk (Some (weekly_apr * 52)) (Some weekly_apr) (Some (weekly_apr / 7))
      (Some (calculate_apy (weekly_apr * 52)))
      (Some (weekly_apr * 52)) (Some (weekly_apr * 52)) 0.
Proof.
  unfold _get_uni_pool_info.
  destruct (PoolInfo.metrics pool_info) as [m|]; cbn [deref bind];
    [|discriminate].
  destruct (truediv (inject_Z (PoolInfo.alloc_points pool_info)) _)
    as [share|] eqn:Eshare; cbn [bind]; [|discriminate].
  destruct price_of_reward as [reward_price|]; cbn [bind]; [|discriminate].
  destruct (truediv _ (Metrics.staked_tvl m)) as [per_tvl|] eqn:Etvl;
    cbn [bind]; [|discriminate].
  destruct (PoolInfo.pool_token pool_info) as [tok|]; cbn [deref bind];
    [|discriminate].
  apply truediv_inv in Eshare, Etvl.
  destruct Eshare as [Htotal ->], Etvl as [Htvl ->].
  intros H. inversion H; subst fu; clear H.
  exists m, reward_price, tok. repeat split; auto.
Qed.

(** What a returned record of [_get_single_pool_info] holds. *)
Lemma single_pool_info_inv (pool_info : PoolInfo.t) (fu : FarmUpdate.t) :
  _get_single_pool_info self pool_info masterchef_data = Ok fu ->
  exists reward_price pool_token weekly_apr,
    price_of_reward = Ok reward_price /\
    PoolInfo.pool_token pool_info = Some pool_token /\
    ~ inject_Z total_alloc_points == 0 /\
    match PoolInfo.metrics pool_info with
    | Some metrics =>
        ~ Metrics.staked_tvl metrics == 0 /\
        weekly_apr = Some (weekly_apr_of pool_info reward_price metrics)
    | None => weekly_apr = None
    end /\
    SinglePool.asset_address (FarmUpdate.pool fu) = PoolToken.address pool_token /\
    let yearly_apr :=
      if opt_truthy weekly_apr
      then option_map (fun w => w * 52) weekly_apr else None in
    aprs fu =
    AprInfo.mk yearly_apr weekly_apr
      (if opt_truthy weekly_apr
       then option_map (fun w => w / 7) weekly_apr else None)
      (if opt_truthy yearly_apr then option_map calculate_apy yearly_apr else None)
      yearly_apr yearly_apr 0.
Proof.
  unfold _get_single_pool_info.
  destruct (truediv (inject_Z (PoolInfo.alloc_points pool_info)) _)
    as [share|] eqn:Eshare; cbn [bind]; [|discriminate].
  destruct price_of_reward as [reward_price|]; cbn [bind]; [|discriminate].
  apply truediv_inv in Eshare. destruct Eshare as [Htotal ->].
  destruct (PoolInfo.metrics pool_info) as [m|].
  - destruct (truediv _ (Metrics.staked_tvl m)) as [per_tvl|] eqn:Etvl;
      cbn [bind]; [|discriminate].
    apply truediv_inv in Etvl. destruct Etvl as [Htvl ->].
    destruct (PoolInfo.pool_token pool_info) as [tok|]; cbn [deref bind];
      [|discriminate].
    intros H. inversion H; subst fu; clear H.
    exists reward_price, tok. eexists. repeat split; auto.
  - cbn [bind].
    destruct (PoolInfo.pool_token pool_info) as [tok|]; cbn [deref bind];
      [|discriminate].
    intros H. inversion H; subst fu; clear H.
    exists reward_price, tok, None. repeat split; auto.
Qed.

(** [_get_uni_pool_info] returns when no division is by zero and the
    reward token has a price. *)
Lemma uni_pool_info_total (pool_info : PoolInfo.t) (metrics : Metrics.t)
  (reward_price : Q) (pool_token : PoolToken.t) :
  PoolInfo.metrics pool_info = Some metrics ->
  price_of_reward = Ok reward_price ->
  PoolInfo.pool_token pool_info = Some pool_token ->
  total_alloc_points <> 0%Z ->
  ~ Metrics.staked_tvl metrics == 0 ->
  exists fu, _get_uni_pool_info self pool_info masterchef_data = Ok fu.
Proof.
  intros Hm Hprice Htok Htotal Htvl. unfold _get_uni_pool_info.
  rewrite Hm, Htok. cbn [deref bind].
  rewrite truediv_ok by (apply inject_Z_nonzero; exact Htotal). cbn [bind].
  rewrite Hprice. cbn [bind].
  rewrite truediv_ok by exact Htvl. cbn [bind].
  eexists. reflexivity.
Qed.

(** The same for [_get_single_pool_info], with or without metrics. *)
Lemma single_pool_info_total (pool_info : PoolInfo.t) (reward_price : Q)
  (pool_token : PoolToken.t) :
  price_of_reward = Ok reward_price ->
  PoolInfo.pool_token pool_info = Some pool_token ->
  total_alloc_points <> 0%Z ->
  (forall metrics, PoolInfo.metrics pool_info = Some metrics ->
                   ~ Metrics.staked_tvl metrics == 0) ->
  exists fu, _get_single_pool_info self pool_info masterchef_data = Ok fu.
Proof.
  intros Hprice Htok Htotal Htvl. unfold _get_single_pool_info.
  rewrite truediv_ok by (apply inject_Z_nonzero; exact Htotal). cbn [bind].
  rewrite Hprice, Htok. cbn [bind].
  destruct (PoolInfo.metrics pool_info) as [m|].
  - rewrite truediv_ok by (apply Htvl; reflexivity). cbn [deref bind].
    eexists. reflexivity.
  - cbn [deref bind]. eexists. reflexivity.
Qed.

(** A zero staked TVL makes both builders raise: the division by it is
    not guarded. *)
Lemma uni_pool_info_zero_tvl (pool_info : PoolInfo.t) (metrics : Metrics.t) :
  PoolInfo.metrics pool_info = Some metrics ->
  Metrics.staked_tvl metrics == 0 ->
  (exists e, _get_uni_pool_info self pool_info masterchef_data = Raise e) /\
  (total_alloc_points <> 0%Z ->
   forall reward_price, price_of_reward = Ok reward_price ->
   _get_uni_pool_info self pool_info masterchef_data = Raise ZeroDivisionError).
Proof.
  intros Hm Htvl. unfold _get_uni_pool_info. rewrite Hm. cbn [deref bind].
  split.
  - destruct (truediv (inject_Z _) _); cbn [bind]; [|eauto].
    destruct price_of_reward; cbn [bind]; [|eauto].
    rewrite truediv_zero by exact Htvl. cbn [bind]. eauto.
  - intros Htotal reward_price Hprice.
    rewrite truediv_ok by (apply inject_Z_nonzero; exact Htotal). cbn [bind].
    rewrite Hprice. cbn [bind].
    rewrite truediv_zero by exact Htvl. reflexivity.
Qed.

Lemma single_pool_info_zero_tvl (pool_info : PoolInfo.t) (metrics : Metrics.t) :
  PoolInfo.metrics pool_info = Some metrics ->
  Metrics.staked_tvl metrics == 0 ->
  (exists e, _get_single_pool_info self pool_info masterchef_data = Raise e) /\
  (total_alloc_points <> 0%Z ->
   forall reward_price, price_of_reward = Ok reward_price ->
   _get_single_pool_info self pool_info masterchef_data = Raise ZeroDivisionError).
Proof.
  intros Hm Htvl. unfold _get_single_pool_info. rewrite Hm.
  split.
  - destruct (truediv (inject_Z _) _); cbn [bind]; [|eauto].
    destruct price_of_reward; cbn [bind]; [|eauto].
    rewrite truediv_zero by exact Htvl. cbn [bind]. eauto.
  - intros Htotal reward_price Hprice.
    rewrite truediv_ok by (apply inject_Z_nonzero; exact Htotal). cbn [bind].
    rewrite Hprice. cbn [bind].
    rewrite truediv_zero by exact Htvl. reflexivity.
Qed.

(** *** The loop of [calculate_supply_aprs] *)

(** A pool without a [farm_update] leaves the rows as they are. *)
Lemma supply_aprs_loop_skip (pool_info : PoolInfo.t) (pre post : list PoolInfo.t) :
  farm_update_of self pool_info masterchef_data = Ok None ->
  forall acc,
    supply_aprs_loop self (pre ++ pool_info :: post) masterchef_data acc =
    supply_aprs_loop self (pre ++ post) masterchef_data acc.
Proof.
  intros Hskip. induction pre as [|p pre IH]; intros acc; simpl.
  - rewrite Hskip. reflexivity.
  - destruct (farm_update_of self p masterchef_data) as [o|e]; cbn [bind];
      [apply IH | reflexivity].
Qed.

(** The loop returns when every pool's step does, and then holds the row
    of every [farm_update]. *)
Lemma supply_aprs_loop_total (pools : list PoolInfo.t) :
  (forall p, In p pools ->
             exists o, farm_update_of self p masterchef_data = Ok o) ->
  forall acc,
    exists rows,
      supply_aprs_loop self pools masterchef_data acc = Ok rows /\
      (forall r, In r acc -> In r rows) /\
      (forall p fu, In p pools ->
                    farm_update_of self p masterchef_data = Ok (Some fu) ->
                    In (format_for_db fu) rows).
Proof.
  induction pools as [|p pools IH]; intros Hall acc; simpl.
  - exists acc. repeat split; auto. intros p fu [].
  - destruct (Hall p (or_introl eq_refl)) as [o Ho]. rewrite Ho. cbn [bind].
    destruct (IH (fun q Hq => Hall q (or_intror Hq))
                (match o with
                 | Some fu => acc ++ [format_for_db fu]
                 | None => acc
                 end)) as (rows & Hrows & Hacc & Hnew).
    exists rows. split; [exact Hrows|]. split.
    + intros r Hr. apply Hacc. destruct o; [apply in_or_app; left|]; exact Hr.
    + intros q fu [Hq|Hq] Hfu.
      * subst q. rewrite Ho in Hfu. inversion Hfu; subst o.
        apply Hacc. apply in_or_app. right. left. reflexivity.
      * apply (Hnew q fu Hq Hfu).
Qed.

(** The step of a classified pool with metrics returns a record, the one
    of the builder for its type. *)
Lemma farm_update_of_classified (pool_info : PoolInfo.t) (tok : PoolToken.t)
  (metrics : Metrics.t) (reward_price : Q) :
  PoolInfo.pool_token pool_info = Some tok ->
  PoolToken.type tok = UNI \/ PoolToken.type tok = ERC20 ->
  PoolInfo.metrics pool_info = Some metrics ->
  price_of_reward = Ok reward_price ->
  total_alloc_points <> 0%Z ->
  ~ Metrics.staked_tvl metrics == 0 ->
  exists fu,
    farm_update_of self pool_info masterchef_data = Ok (Some fu) /\
    (_get_uni_pool_info self pool_info masterchef_data = Ok fu \/
     _get_single_pool_info self pool_info masterchef_data = Ok fu).
Proof.
  intros Htok Htype Hm Hprice Htotal Htvl. unfold farm_update_of.
  rewrite Htok. cbn [deref bind]. rewrite Hm.
  destruct Htype as [-> | ->].
  - destruct (uni_pool_info_total pool_info Hm Hprice Htok Htotal Htvl)
      as [fu Hfu].
    exists fu. rewrite Hfu. auto.
  - destruct (single_pool_info_total pool_info Hprice Htok Htotal) as [fu Hfu].
    + intros m' Hm'. rewrite Hm in Hm'. inversion Hm'; subst m'. exact Htvl.
    + exists fu. rewrite Hfu. auto.
Qed.

(** The step of any pool with a token returns, under the same
    conditions. *)
Lemma farm_update_of_total (pool_info : PoolInfo.t) (reward_price : Q) :
  PoolInfo.pool_token pool_info <> None ->
  price_of_reward = Ok reward_price ->
  total_alloc_points <> 0%Z ->
  (forall tok metrics,
     PoolInfo.pool_token pool_info = Some tok ->
     PoolToken.type tok = UNI \/ PoolToken.type tok = ERC20 ->
     PoolInfo.metrics pool_info = Some metrics ->
     ~ Metrics.staked_tvl metrics == 0) ->
  exists o, farm_update_of self pool_info masterchef_data = Ok o.
Proof.
  intros Htok Hprice Htotal Htvl.
  destruct (PoolInfo.pool_token pool_info) as [tok|] eqn:Etok; [|congruence].
  destruct (PoolInfo.metrics pool_info) as [m|] eqn:Em.
  - destruct (PoolToken.type tok) eqn:Etype;
      try (exists None; unfold farm_update_of; rewrite Etok; cbn [deref bind];
           rewrite Etype; reflexivity).
    + destruct (farm_update_of_classified pool_info Etok
                  (or_introl Etype) Em Hprice Htotal) as (fu & Hfu & _); eauto.
    + destruct (farm_update_of_classified pool_info Etok
                  (or_intror Etype) Em Hprice Htotal) as (fu & Hfu & _); eauto.
  - exists None. unfold farm_update_of. rewrite Etok, Em. cbn [deref bind].
    destruct (PoolToken.type tok); reflexivity.
Qed.

(** C1: [calculate_supply_aprs] returns when the total allocation points
    and the staked TVLs it divides by are not zero, the reward token has a
    price and every pool has a token; its rows then hold, for every pool
    classified UNI or ERC20 whose metrics are present, a record whose
    weekly APR is (alloc_points / total_alloc_points) x rewards_per_week x
    reward price / staked TVL x 100, which is the same number as
    (alloc_points / total_alloc_points) x rewards_per_week x reward price
    x 100 / staked TVL. *)
Theorem calculate_supply_aprs_weekly_apr
  (pools : list PoolInfo.t) (reward_price : Q) :
  total_alloc_points <> 0%Z ->
  price_of_reward = Ok reward_price ->
  (forall p, In p pools -> PoolInfo.pool_token p <> None) ->
  (forall p tok metrics,
     In p pools -> PoolInfo.pool_token p = Some tok ->
     PoolToken.type tok = UNI \/ PoolToken.type tok = ERC20 ->
     PoolInfo.metrics p = Some metrics ->
     ~ Metrics.staked_tvl metrics == 0) ->
  exists rows,
    calculate_supply_aprs self pools masterchef_data = Ok rows /\
    forall p tok metrics,
      In p pools -> PoolInfo.pool_token p = Some tok ->
      PoolToken.type tok = UNI \/ PoolToken.type tok = ERC20 ->
      PoolInfo.metrics p = Some metrics ->
      exists fu weekly_apr,
        In (format_for_db fu) rows /\
        farm_update_of self p masterchef_data = Ok (Some fu) /\
        SinglePool.asset_address (FarmUpdate.pool fu) = PoolToken.address tok /\
        AprInfo.apr_weekly (aprs fu) = Some weekly_apr /\
        weekly_apr =
          inject_Z (PoolInfo.alloc_points p) / inject_Z total_alloc_points
          * rewards_per_week * reward_price / Metrics.staked_tvl metrics * 100 /\
        weekly_apr ==
          inject_Z (PoolInfo.alloc_points p) / inject_Z total_alloc_points
          * rewards_per_week * reward_price * 100 / Metrics.staked_tvl metrics.
Proof.
  intros Htotal Hprice Htoks Htvl.
  destruct (supply_aprs_loop_total pools) with (acc := @nil DbRow)
    as (rows & Hrows & _ & Hin).
  { intros p Hp.
    apply (@farm_update_of_total p reward_price); auto.
    intros tok m. apply Htvl. exact Hp. }
  exists rows. split; [exact Hrows|].
  intros p tok m Hp Htok Htype Hm.
  assert (Hnz : ~ Metrics.staked_tvl m == 0) by (apply (Htvl p tok); auto).
  destruct (farm_update_of_classified p Htok Htype Hm Hprice Htotal Hnz)
    as (fu & Hfu & Hbuilt).
  exists fu, (weekly_apr_of p reward_price m).
  split; [apply (Hin p fu Hp Hfu)|]. split; [exact Hfu|].
  assert (Hrec : SinglePool.asset_address (FarmUpdate.pool fu) =
                 PoolToken.address tok /\
                 AprInfo.apr_weekly (aprs fu) =
                 Some (weekly_apr_of p reward_price m)).
  { destruct Hbuilt as [Hb|Hb].
    - apply uni_pool_info_inv in Hb.
      destruct Hb as (m' & price' & tok' & Hm' & Hprice' & Htok' & _ & _ & Ha & Haprs).
      rewrite Hm in Hm'. rewrite Htok in Htok'. rewrite Hprice in Hprice'.
      inversion Hm'; inversion Htok'; inversion Hprice'; subst.
      rewrite Ha, Haprs. split; reflexivity.
    - apply single_pool_info_inv in Hb.
      destruct Hb as (price' & tok' & w & Hprice' & Htok' & _ & Hw & Ha & Haprs).
      rewrite Hm in Hw. rewrite Htok in Htok'. rewrite Hprice in Hprice'.
      destruct Hw as [_ ->]. inversion Htok'; inversion Hprice'; subst.
      rewrite Ha, Haprs. split; reflexivity. }
  destruct Hrec as [Ha Hw].
  repeat split; auto.
  field. split; first [exact Hnz | apply inject_Z_nonzero; exact Htotal].
Qed.






(** C4: in a record either builder returns, a yearly APR that is present
    comes with the yearly APY [calculate_apy] makes of it. *)
Theorem apy_yearly_is_calculate_apy
  (pool_info : PoolInfo.t) (fu : FarmUpdate.t) (yearly_apr : Q) :
  _get_uni_pool_info self pool_info masterchef_data = Ok fu \/
  _get_single_pool_info self pool_info masterchef_data = Ok fu ->
  AprInfo.apr_yearly (aprs fu) = Some yearly_apr ->
  AprInfo.apy_yearly (aprs fu) = Some (calculate_apy yearly_apr).
Proof.
  intros [Hb|Hb].
  - apply uni_pool_info_inv in Hb.
    destruct Hb as (m & price & tok & _ & _ & _ & _ & _ & _ & Haprs).
    rewrite Haprs. cbn. intros Hy. inversion Hy. reflexivity.
  - apply single_pool_info_inv in Hb.
    destruct Hb as (price & tok & w & _ & _ & _ & _ & _ & Haprs).
    rewrite Haprs. cbn.
    destruct w as [w|]; cbn; [|discriminate].
    destruct (float_truthy w) eqn:Ew; cbn; [|discriminate].
    intros Hy. inversion Hy; subst yearly_apr.
    rewrite float_truthy_scale by discriminate. rewrite Ew. reflexivity.
Qed.

(** C9: when the weekly APR [_get_single_pool_info] computed is exactly
    zero, the daily APR, the yearly APR and the yearly APY of the record are
    [None]; a pool without allocation points is such a pool. *)
Theorem single_pool_zero_weekly_apr_gives_none
  (pool_info : PoolInfo.t) (fu : FarmUpdate.t) :
  _get_single_pool_info self pool_info masterchef_data = Ok fu ->
  (forall weekly_apr,
     AprInfo.apr_weekly (aprs fu) = Some weekly_apr -> weekly_apr == 0 ->
     AprInfo.apr_daily (aprs fu) = None /\
     AprInfo.apr_yearly (aprs fu) = None /\
     AprInfo.apy_yearly (aprs fu) = None) /\
  (PoolInfo.alloc_points pool_info = 0%Z ->
   PoolInfo.metrics pool_info <> None ->
   exists weekly_apr,
     AprInfo.apr_weekly (aprs fu) = Some weekly_apr /\ weekly_apr == 0).
Proof.
  intros Hb. apply single_pool_info_inv in Hb.
  destruct Hb as (price & tok & w & _ & _ & Htotal & Hw & _ & Haprs).
  rewrite Haprs. cbn. split.
  - intros weekly_apr -> Hzero.
    apply float_truthy_false in Hzero. cbn. rewrite Hzero. cbn. auto.
  - intros Halloc Hm.
    destruct (PoolInfo.metrics pool_info) as [m|]; [|congruence].
    destruct Hw as [Htvl ->]. eexists. split; [reflexivity|].
    rewrite Halloc. field. split; first [exact Htvl | exact Htotal].
Qed.

(** X1: where the yearly and daily APR do follow the weekly APR: always in
    [_get_uni_pool_info], and in [_get_single_pool_info] when the weekly APR
    is not zero, the yearly APR is 52 times and the daily APR a seventh of
    the weekly APR. *)
Lemma apr_yearly_daily_of_weekly
  (pool_info : PoolInfo.t) (fu : FarmUpdate.t) (weekly_apr : Q) :
  _get_uni_pool_info self pool_info masterchef_data = Ok fu \/
  _get_single_pool_info self pool_info masterchef_data = Ok fu /\
  ~ weekly_apr == 0 ->
  AprInfo.apr_weekly (aprs fu) = Some weekly_apr ->
  AprInfo.apr_yearly (aprs fu) = Some (weekly_apr * 52) /\
  AprInfo.apr_daily (aprs fu) = Some (weekly_apr / 7).
Proof.
  intros [Hb|[Hb Hnz]].
  - apply uni_pool_info_inv in Hb.
    destruct Hb as (m & price & tok & _ & _ & _ & _ & _ & _ & Haprs).
    rewrite Haprs. cbn. intros Hw. inversion Hw. auto.
  - apply single_pool_info_inv in Hb.
    destruct Hb as (price & tok & w & _ & _ & _ & _ & _ & Haprs).
    rewrite Haprs. cbn. intros ->. cbn.
    apply float_truthy_true in Hnz. rewrite Hnz. cbn. auto.
Qed.

(** X2: a pool whose token has a type other than UNI and ERC20 acquires
    no metrics in [get_pool_metrics] and contributes no row to
    [calculate_supply_aprs]. *)
Lemma other_type_pool_is_skipped (pool_info : PoolInfo.t) (tok : PoolToken.t) :
  PoolInfo.pool_token pool_info = Some tok ->
  PoolToken.type tok <> UNI -> PoolToken.type tok <> ERC20 ->
  get_pool_metrics self pool_info = Ok pool_info /\
  farm_update_of self pool_info masterchef_data = Ok None /\
  forall pre post,
    calculate_supply_aprs self (pre ++ pool_info :: post) masterchef_data =
    calculate_supply_aprs self (pre ++ post) masterchef_data.
Proof.
  intros Htok Huni Herc.
  assert (Hskip : farm_update_of self pool_info masterchef_data = Ok None).
  { unfold farm_update_of. rewrite Htok. cbn [deref bind].
    destruct (PoolToken.type tok); congruence. }
  split; [|split; [exact Hskip|]].
  - unfold get_pool_metrics. rewrite Htok. cbn [deref bind].
    destruct (PoolToken.type tok) eqn:Etype; try congruence;
      cbn [bind]; rewrite Htok; cbn [deref bind]; rewrite Etype; reflexivity.
  - intros pre post. apply (supply_aprs_loop_skip _ _ _ Hskip).
Qed.

(** A pool without a token stops both functions at [pool_token.type]. *)
Lemma unclassified_pool_raises (pool_info : PoolInfo.t) :
  PoolInfo.pool_token pool_info = None ->
  get_pool_metrics self pool_info = Raise AttributeError /\
  forall rest,
    calculate_supply_aprs self (pool_info :: rest) masterchef_data =
    Raise AttributeError.
Proof.
  intros Htok. split.
  - unfold get_pool_metrics. rewrite Htok. reflexivity.
  - intros rest. unfold calculate_supply_aprs, farm_update_of. simpl.
    unfold farm_update_of. rewrite Htok. reflexivity.
Qed.

End SupplyAprs.

(** ** The weekly reward pool *)

(** C8: [get_masterchef_data] sets [rewards_per_week] to the per-block
    reward divided by 1e18, times the multiplier of one block (from the
    current block to the next), times 604800, divided by 1.1.  That is
    10/11 of the per-week conversion, and so another number whenever the
    conversion is not zero. *)
Theorem rewards_per_week_haircut (self : Self.t) :
  let c := Self.contract self in
  let current_block := Contract.chain_length c in
  let per_week :=
    (inject_Z (Contract.BRLPerBlock c) / 10 ^ 18
     * inject_Z (Contract.getMultiplier c current_block (current_block + 1))
     * 604800)%Q in
  let data := get_masterchef_data self in
  MasterChefData.rewards_per_week data = (per_week / (11 # 10))%Q /\
  MasterChefData.rewards_per_week data == per_week * (10 # 11) /\
  (~ per_week == 0 -> ~ MasterChefData.rewards_per_week data == per_week) /\
  MasterChefData.pool_count data = Contract.poolLength c /\
  MasterChefData.total_alloc_points data = Contract.totalAllocPoint c.
Proof.
  intros c current_block per_week data.
  assert (Hcode : MasterChefData.rewards_per_week data = (per_week / (11 # 10))%Q)
    by reflexivity.
  assert (Hcut : MasterChefData.rewards_per_week data == per_week * (10 # 11)).
  { rewrite Hcode. field. }
  repeat split; auto.
  intros Hnz Hsame. apply Hnz. rewrite Hsame in Hcut. lra.
Qed.

(** ** Dictionaries *)

Section Dict.

Variable V : Type.
Implicit Types (d : dict V) (k : string) (v : V).

(** [setdefault] appends the key when it is new and changes nothing
    else. *)
Lemma setdefault_In d k v (kp : string * V) :
  In kp (setdefault d k v) -> In kp d \/ (kp = (k, v) /\ ~ In k (keys d)).
Proof.
  induction d as [|[k' v'] d IH]; cbn.
  - intros [<-|[]]. right. auto.
  - destruct (String.eqb k' k) eqn:E.
    + intros H. left. exact H.
    + intros [H|H]; [left; left; exact H|].
      destruct (IH H) as [Hin|[Heq Hnot]]; [left; right; exact Hin|].
      right. split; [exact Heq|].
      intros [Hk|Hk]; [|contradiction].
      subst k'. rewrite String.eqb_refl in E. discriminate.
Qed.

Lemma setdefault_keys_old d k v k' :
  In k' (keys d) -> In k' (keys (setdefault d k v)).
Proof.
  induction d as [|[k0 v0] d IH]; cbn; [intros []|].
  destruct (String.eqb k0 k); cbn; intros [H|H]; auto.
Qed.

Lemma setdefault_keys_new d k v : In k (keys (setdefault d k v)).
Proof.
  induction d as [|[k0 v0] d IH]; cbn; [auto|].
  destruct (String.eqb k0 k) eqn:E; cbn; [|auto].
  left. apply String.eqb_eq. exact E.
Qed.

Lemma setdefault_keys_inv d k v k' :
  In k' (keys (setdefault d k v)) -> In k' (keys d) \/ k' = k.
Proof.
  unfold keys. intros H. apply in_map_iff in H.
  destruct H as ([k0 v0] & <- & Hin).
  apply setdefault_In in Hin. destruct Hin as [Hin|[Heq _]].
  - left. apply in_map_iff. exists (k0, v0). auto.
  - right. inversion Heq. reflexivity.
Qed.

Lemma setdefault_NoDup d k v :
  NoDup (keys d) -> NoDup (keys (setdefault d k v)).
Proof.
  induction d as [|[k0 v0] d IH]; cbn.
  - intros _. constructor; [intros []|constructor].
  - intros Hnd. inversion Hnd as [|? ? Hnotin Hnd']; subst.
    destruct (String.eqb k0 k) eqn:E; cbn; [exact Hnd|].
    constructor; [|apply IH; exact Hnd'].
    intros Hin. apply setdefault_keys_inv in Hin.
    destruct Hin as [Hin| ->]; [contradiction|].
    rewrite String.eqb_refl in E. discriminate.
Qed.

End Dict.

Lemma Forall2_In_l {A B : Type} (R : A -> B -> Prop) (l : list A) (l' : list B)
  (a : A) :
  Forall2 R l l' -> In a l -> exists b, In b l' /\ R a b.
Proof.
  induction 1 as [|x y l l' Hxy _ IH]; intros Hin; [destruct Hin|].
  destruct Hin as [<-|Hin].
  - exists y. split; [left; reflexivity | exact Hxy].
  - destruct (IH Hin) as (b & Hb & Hab). exists b. split; [right|]; assumption.
Qed.

Lemma Forall2_In_r {A B : Type} (R : A -> B -> Prop) (l : list A) (l' : list B)
  (b : B) :
  Forall2 R l l' -> In b l' -> exists a, In a l /\ R a b.
Proof.
  induction 1 as [|x y l l' Hxy _ IH]; intros Hin; [destruct Hin|].
  destruct Hin as [<-|Hin].
  - exists x. split; [left; reflexivity | exact Hxy].
  - destruct (IH Hin) as (a & Ha & Hab). exists a. split; [right|]; assumption.
Qed.

Lemma Forall2_trans_rel {A : Type} (R : A -> A -> Prop) :
  (forall x y z, R x y -> R y z -> R x z) ->
  forall l1 l2 l3, Forall2 R l1 l2 -> Forall2 R l2 l3 -> Forall2 R l1 l3.
Proof.
  intros Htrans l1 l2 l3 H12. revert l3.
  induction H12 as [|x y l1 l2 Hxy _ IH]; intros l3 H23;
    inversion H23; subst; constructor; eauto.
Qed.

Lemma gather_ok_inv {A B : Type} (f : A -> result B) (l : list A) :
  forall l', gather (map f l) = Ok l' -> Forall2 (fun a b => f a = Ok b) l l'.
Proof.
  induction l as [|a l IH]; intros l'; cbn [map gather].
  - intros H. inversion H. constructor.
  - destruct (f a) as [b|] eqn:Ea; cbn [bind]; [|discriminate].
    destruct (gather (map f l)) as [bs|]; cbn [bind]; [|discriminate].
    intros H. inversion H. constructor; [exact Ea | apply IH; reflexivity].
Qed.

Lemma Forall2_diag {A : Type} (R : A -> A -> Prop) (l : list A) :
  (forall x, In x l -> R x x) -> Forall2 R l l.
Proof.
  induction l as [|x l IH]; intros H; constructor.
  - apply H. left. reflexivity.
  - apply IH. intros y Hy. apply H. right. exact Hy.
Qed.

Lemma Forall2_conj {A B : Type} (R1 R2 : A -> B -> Prop) (l : list A)
  (l' : list B) :
  Forall2 R1 l l' -> Forall2 R2 l l' ->
  Forall2 (fun x y => R1 x y /\ R2 x y) l l'.
Proof.
  induction 1 as [|x y l l' Hxy _ IH]; intros H2; inversion H2; subst;
    constructor; auto.
Qed.

Lemma Forall2_compose {A B C : Type} (R1 : A -> B -> Prop) (R2 : B -> C -> Prop)
  (R3 : A -> C -> Prop) :
  (forall x y z, R1 x y -> R2 y z -> R3 x z) ->
  forall l1 l2 l3, Forall2 R1 l1 l2 -> Forall2 R2 l2 l3 -> Forall2 R3 l1 l3.
Proof.
  intros Hcomp l1 l2 l3 H12. revert l3.
  induction H12 as [|x y l1 l2 Hxy _ IH]; intros l3 H23;
    inversion H23; subst; constructor; eauto.
Qed.

(** ** The pools of [get_pools_info] *)

Section GetPoolsInfo.

Context {helpers : Helpers}.
Variable self : Self.t.

Local Abbreviation classify a :=
  (snd (get_token a (Contract.address (Self.contract self)))).

(** What the second loop keeps of an entry: its key and the fields
    [get_pool_info] read from the contract. *)
Local Abbreviation kept :=
  (fun e e' : string * PoolInfo.t =>
     fst e' = fst e /\
     PoolInfo.address (snd e') = PoolInfo.address (snd e) /\
     PoolInfo.alloc_points (snd e') = PoolInfo.alloc_points (snd e) /\
     PoolInfo.deposit_fee (snd e') = PoolInfo.deposit_fee (snd e)).

Lemma kept_refl (d : dict PoolInfo.t) : Forall2 kept d d.
Proof. induction d; constructor; auto. Qed.

Lemma assign_pool_token_kept (d d' : dict PoolInfo.t) (tok : PoolToken.t) :
  assign_pool_token d tok = Ok d' -> Forall2 kept d d'.
Proof.
  revert d'. induction d as [|[k p] d IH]; intros d'; cbn; [discriminate|].
  destruct (String.eqb k (PoolToken.address tok)).
  - intros H. inversion H; subst d'. constructor; [cbn; auto | apply kept_refl].
  - destruct (assign_pool_token d tok) as [d1|]; cbn; [|discriminate].
    intros H. inversion H; subst d'. constructor; [cbn; auto | apply IH; reflexivity].
Qed.

Lemma assign_pool_tokens_kept (toks : list (option PoolToken.t))
  (d d' : dict PoolInfo.t) :
  assign_pool_tokens d toks = Ok d' -> Forall2 kept d d'.
Proof.
  revert d. induction toks as [|tok toks IH]; intros d; cbn.
  - intros H. inversion H. apply kept_refl.
  - destruct tok as [t|]; cbn; [|discriminate].
    destruct (assign_pool_token d t) as [d1|] eqn:E; cbn; [|discriminate].
    intros H. apply assign_pool_token_kept in E. apply IH in H.
    apply Forall2_trans_rel with (l2 := d1); auto.
    intros x y z (? & ? & ? & ?) (? & ? & ? & ?). repeat split; congruence.
Qed.

(** The keys and the addresses after the second loop. *)
Lemma kept_addresses (d d' : dict PoolInfo.t) :
  Forall2 kept d d' ->
  (forall e, In e d -> PoolInfo.address (snd e) = fst e) ->
  keys d' = keys d /\ map PoolInfo.address (values d') = keys d.
Proof.
  induction 1 as [|e e' d d' (Hk & Ha & _) _ IH]; intros Hinv; [auto|].
  destruct IH as [IH1 IH2]; [intros x Hx; apply Hinv; right; exact Hx|].
  unfold keys, values in *. cbn.
  rewrite IH1, IH2, Hk, Ha, (Hinv e (or_introl eq_refl)). auto.
Qed.

Lemma collect_pools_snoc (pools : list PoolInfo.t) (pool : PoolInfo.t) :
  collect_pools (pools ++ [pool]) =
  setdefault (collect_pools pools) (PoolInfo.address pool) pool.
Proof. unfold collect_pools. rewrite fold_left_app. reflexivity. Qed.

(** The first loop: one entry per address, under its address, holding the
    first pool of the list that has the address. *)
Lemma collect_pools_spec (pools : list PoolInfo.t) :
  NoDup (keys (collect_pools pools)) /\
  (forall k p,
     In (k, p) (collect_pools pools) ->
     PoolInfo.address p = k /\
     exists pre post,
       pools = pre ++ p :: post /\
       forall q, In q pre -> PoolInfo.address q <> k) /\
  (forall q, In q pools ->
             In (PoolInfo.address q) (keys (collect_pools pools))).
Proof.
  induction pools as [|x pools (Hnd & Hfirst & Hcov)] using rev_ind.
  - split; [apply NoDup_nil|]. split; [intros k p [] | intros q []].
  - rewrite collect_pools_snoc. split; [|split].
    + apply setdefault_NoDup. exact Hnd.
    + intros k p Hin. apply setdefault_In in Hin.
      destruct Hin as [Hin|[Heq Hnew]].
      * destruct (Hfirst k p Hin) as (Ha & pre & post & Hsplit & Hpre).
        split; [exact Ha|]. exists pre, (post ++ [x]).
        split; [|exact Hpre]. rewrite Hsplit, <- app_assoc. reflexivity.
      * inversion Heq; subst k p. split; [reflexivity|].
        exists pools, []. split; [reflexivity|].
        intros q Hq Hsame. apply Hnew. rewrite <- Hsame. apply Hcov. exact Hq.
    + intros q Hq. apply in_app_or in Hq. destruct Hq as [Hq|[<-|[]]].
      * apply setdefault_keys_old. apply Hcov. exact Hq.
      * apply setdefault_keys_new.
Qed.

(** Tokens for other keys pass the head entry by. *)
Lemma assign_pool_tokens_skip (k : string) (p : PoolInfo.t)
  (ts : list PoolToken.t) :
  (forall t, In t ts -> PoolToken.address t <> k) ->
  forall d,
    assign_pool_tokens ((k, p) :: d) (map Some ts) =
    (d' <- assign_pool_tokens d (map Some ts) ;; Ok ((k, p) :: d')).
Proof.
  induction ts as [|t ts IH]; intros Hts d; cbn; [reflexivity|].
  assert (E : String.eqb k (PoolToken.address t) = false).
  { apply String.eqb_neq. intros Hk. apply (Hts t (or_introl eq_refl)).
    symmetry. exact Hk. }
  rewrite E.
  destruct (assign_pool_token d t) as [d1|]; cbn; [|reflexivity].
  apply IH. intros t' Ht'. apply Hts. right. exact Ht'.
Qed.

(** Tokens that come in the order of the keys, each with the address of
    its key, land one per entry. *)
Lemma assign_pool_tokens_aligned (d : dict PoolInfo.t) (ts : list PoolToken.t) :
  NoDup (keys d) ->
  Forall2 (fun e t => PoolToken.address t = fst e) d ts ->
  exists d',
    assign_pool_tokens d (map Some ts) = Ok d' /\
    Forall2 (fun e' t => fst e' = PoolToken.address t /\
                         PoolInfo.pool_token (snd e') = Some t) d' ts.
Proof.
  intros Hnd Hal. induction Hal as [|[k p] t d ts Hkt Hal IH].
  - exists []. split; [reflexivity | constructor].
  - cbn in Hkt. subst k. cbn in Hnd.
    inversion Hnd as [|? ? Hnotin Hnd']; subst.
    destruct (IH Hnd') as (d' & Hd' & Hd'ts).
    exists ((PoolToken.address t, PoolInfo.set_pool_token p t) :: d').
    split.
    + cbn. rewrite String.eqb_refl. cbn.
      rewrite assign_pool_tokens_skip, Hd'; [reflexivity|].
      intros t' Ht' Hsame. apply Hnotin.
      destruct (@Forall2_In_r _ _ _ _ _ t' Hal Ht') as (e & He & Hte).
      rewrite <- Hsame, Hte. apply in_map. exact He.
    + constructor; [cbn; auto | exact Hd'ts].
Qed.

Lemma gather_classified (d : dict PoolInfo.t) :
  (forall e, In e d ->
     exists t, classify (fst e) = Ok (Some t) /\ PoolToken.address t = fst e) ->
  exists ts,
    gather (map (fun addr => classify addr) (keys d)) = Ok (map Some ts) /\
    Forall2 (fun e t => classify (fst e) = Ok (Some t) /\
                        PoolToken.address t = fst e) d ts.
Proof.
  induction d as [|e d IH]; intros Hcls.
  - exists []. split; [reflexivity | constructor].
  - destruct (Hcls e (or_introl eq_refl)) as (t & Ht & Hat).
    destruct IH as (ts & Hts & Hal); [intros x Hx; apply Hcls; right; exact Hx|].
    exists (t :: ts). split; [|constructor; auto].
    change (keys (e :: d)) with (fst e :: keys d).
    rewrite map_cons. cbn [gather]. cbn beta.
    rewrite Ht. cbn [bind]. rewrite Hts. reflexivity.
Qed.

Lemma get_pool_info_pool_token (pool_index : Z) :
  PoolInfo.pool_token (get_pool_info self pool_index) = None.
Proof.
  unfold get_pool_info.
  destruct (Contract.poolInfo (Self.contract self) pool_index)
    as [[[[lp ap] lrb] abs] df].
  reflexivity.
Qed.

(** What the second loop does to the token of an entry, given the tokens
    it went through: the entry keeps its token when none of them has its
    key for address, and holds one of those that have it otherwise. *)
Local Abbreviation assigned toks :=
  (fun e e' : string * PoolInfo.t =>
     fst e' = fst e /\
     ((PoolInfo.pool_token (snd e') = PoolInfo.pool_token (snd e) /\
       forall t, In (Some t) toks -> PoolToken.address t <> fst e) \/
      (exists t, In (Some t) toks /\ PoolToken.address t = fst e /\
                 PoolInfo.pool_token (snd e') = Some t))).

Lemma assigned_keys (toks : list (option PoolToken.t)) (d d' : dict PoolInfo.t) :
  Forall2 (assigned toks) d d' -> keys d' = keys d.
Proof.
  induction 1 as [|e e' d d' [Hk _] _ IH]; [reflexivity|].
  unfold keys in *. cbn. rewrite Hk, IH. reflexivity.
Qed.

Lemma assign_pool_token_assigned (tok : PoolToken.t) (d : dict PoolInfo.t) :
  forall d',
    NoDup (keys d) -> assign_pool_token d tok = Ok d' ->
    Forall2 (assigned [Some tok]) d d'.
Proof.
  induction d as [|[k p] d IH]; intros d' Hnd; cbn; [discriminate|].
  inversion Hnd as [|? ? Hnotin Hnd']; subst.
  destruct (String.eqb k (PoolToken.address tok)) eqn:E.
  - apply String.eqb_eq in E. intros H. inversion H; subst d'; clear H.
    constructor.
    + cbn. split; [reflexivity|]. right. exists tok. auto.
    + apply Forall2_diag. intros e He. split; [reflexivity|]. left.
      split; [reflexivity|].
      intros t [Ht|[]] Hsame. inversion Ht; subst t.
      apply Hnotin. rewrite E, Hsame. apply in_map. exact He.
  - apply String.eqb_neq in E.
    destruct (assign_pool_token d tok) as [d1|] eqn:Ed1; cbn; [|discriminate].
    intros H. inversion H; subst d'; clear H.
    constructor; [|apply IH; auto].
    cbn. split; [reflexivity|]. left. split; [reflexivity|].
    intros t [Ht|[]]. inversion Ht; subst t. congruence.
Qed.

Lemma assign_pool_tokens_assigned (toks : list (option PoolToken.t)) :
  forall d d',
    NoDup (keys d) -> assign_pool_tokens d toks = Ok d' ->
    Forall2 (assigned toks) d d'.
Proof.
  induction toks as [|o toks IH]; intros d d' Hnd; cbn.
  - intros H. inversion H; subst d'. apply Forall2_diag.
    intros e _. split; [reflexivity|]. left. split; [reflexivity|].
    intros t [].
  - destruct o as [t|]; cbn [deref bind]; [|discriminate].
    destruct (assign_pool_token d t) as [d1|] eqn:Ed1; cbn [bind]; [|discriminate].
    intros Hrest.
    pose proof (@assign_pool_token_assigned t d d1 Hnd Ed1) as H1.
    assert (Hnd1 : NoDup (keys d1))
      by (rewrite (@assigned_keys [Some t] d d1 H1); exact Hnd).
    pose proof (IH d1 d' Hnd1 Hrest) as H2.
    revert H1 H2. apply Forall2_compose.
    intros e e1 e' [Hk1 Hone] [Hk2 Hmore].
    split; [congruence|].
    destruct Hmore as [[Hsame Hnone]|(t' & Hin & Haddr & Htok)].
    + destruct Hone as [[Hsame1 Hnone1]|(t1 & Hin1 & Haddr1 & Htok1)].
      * left. split; [congruence|].
        intros t0 [Ht0|Ht0].
        -- apply Hnone1. left. exact Ht0.
        -- rewrite <- Hk1. apply Hnone. exact Ht0.
      * right. exists t1. destruct Hin1 as [Hin1|[]].
        split; [left; exact Hin1|]. split; [exact Haddr1 | congruence].
    + right. exists t'. split; [right; exact Hin|].
      split; [congruence | exact Htok].
Qed.

(** C10, as the code has it: [get_pools_info] returns at most one pool per
    LP token address; the pool it returns for an address is the first of
    the pools read from the contract, in index order, that has the address
    (no pool before it has it), and every address read is kept.  The second
    loop files each classification under the address the classification
    carries, not under the address that was classified: the [pool_token] of
    a returned pool is a classification whose address is the pool's, and it
    is [None] when no classification carries the pool's address.  When every
    address is classified by a token that carries the address it was asked
    for, the function returns, and each pool it returns has [pool_token] set
    to the classification of its own address. *)
Theorem get_pools_info_one_pool_per_address (pool_count : Z) :
  let fetched := map (get_pool_info self) (range pool_count) in
  (forall pools,
     get_pools_info self pool_count = Ok pools ->
     NoDup (map PoolInfo.address pools) /\
     (forall p, In p pools ->
        exists pre p0 post,
          fetched = pre ++ p0 :: post /\
          (forall q, In q pre -> PoolInfo.address q <> PoolInfo.address p0) /\
          PoolInfo.address p = PoolInfo.address p0 /\
          PoolInfo.alloc_points p = PoolInfo.alloc_points p0 /\
          PoolInfo.deposit_fee p = PoolInfo.deposit_fee p0) /\
     (forall q, In q fetched ->
        exists p, In p pools /\ PoolInfo.address p = PoolInfo.address q) /\
     (forall p, In p pools ->
        (forall t, PoolInfo.pool_token p = Some t ->
           PoolToken.address t = PoolInfo.address p /\
           exists q, In q fetched /\
                     classify (PoolInfo.address q) = Ok (Some t)) /\
        (PoolInfo.pool_token p = None ->
         forall q t, In q fetched ->
           classify (PoolInfo.address q) = Ok (Some t) ->
           PoolToken.address t <> PoolInfo.address p))) /\
  ((forall q, In q fetched ->
      exists t, classify (PoolInfo.address q) = Ok (Some t) /\
                PoolToken.address t = PoolInfo.address q) ->
   exists pools,
     get_pools_info self pool_count = Ok pools /\
     forall p, In p pools ->
       exists t, classify (PoolInfo.address p) = Ok (Some t) /\
                 PoolInfo.pool_token p = Some t).
Proof.
  intros fetched.
  assert (Hdef : map (get_pool_info self) (range pool_count) = fetched)
    by reflexivity.
  assert (Hfresh : forall q, In q fetched -> PoolInfo.pool_token q = None).
  { intros q Hq. unfold fetched in Hq. apply in_map_iff in Hq.
    destruct Hq as (i & <- & _). apply get_pool_info_pool_token. }
  clearbody fetched.
  destruct (collect_pools_spec fetched) as (Hnd & Hfirst & Hcov).
  assert (Hinv : forall e, In e (collect_pools fetched) ->
                           PoolInfo.address (snd e) = fst e).
  { intros [k p] Hin. apply Hfirst in Hin. tauto. }
  split.
  - intros pools H. unfold get_pools_info in H. cbv zeta in H.
    rewrite Hdef in H.
    apply bind_ok_inv in H. destruct H as (toks & Hg & H).
    apply bind_ok_inv in H. destruct H as (d' & Ha & H).
    inversion H; subst pools; clear H.
    apply gather_ok_inv in Hg.
    pose proof (@assign_pool_tokens_assigned toks _ d' Hnd Ha) as Hasg.
    apply assign_pool_tokens_kept in Ha.
    destruct (kept_addresses Ha Hinv) as [_ Haddr].
    pose proof (Forall2_conj Ha Hasg) as Hboth.
    split; [rewrite Haddr; exact Hnd|]. split; [|split].
    + intros p Hp. unfold values in Hp. apply in_map_iff in Hp.
      destruct Hp as ([k' p'] & Heq & Hin'). cbn in Heq. subst p'.
      destruct (@Forall2_In_r _ _ _ _ _ (k', p) Ha Hin')
        as ([k p0] & Hin & _ & Haddr0 & Halloc0 & Hfee0).
      cbn in Haddr0, Halloc0, Hfee0.
      destruct (Hfirst k p0 Hin) as (Hp0 & pre & post & Hsplit & Hpre).
      exists pre, p0, post. rewrite <- Hp0 in Hpre. repeat split; auto.
    + intros q Hq. apply Hcov in Hq. rewrite <- Haddr in Hq.
      apply in_map_iff in Hq. destruct Hq as (p & Hp & Hin).
      exists p. auto.
    + intros p Hp. unfold values in Hp. apply in_map_iff in Hp.
      destruct Hp as ([k' p'] & Heq & Hin'). cbn in Heq. subst p'.
      destruct (@Forall2_In_r _ _ _ _ _ (k', p) Hboth Hin')
        as ([k p0] & Hin & (_ & Haddr0 & _) & _ & Hcase).
      cbn in Haddr0, Hcase.
      destruct (Hfirst k p0 Hin) as (Hp0 & pre & post & Hsplit & _).
      assert (Hp0in : In p0 fetched)
        by (rewrite Hsplit; apply in_or_app; right; left; reflexivity).
      assert (Hkey : PoolInfo.address p = k) by congruence.
      split.
      * intros t Ht.
        destruct Hcase as [[Hsame _]|(t0 & Hin0 & Haddr1 & Htok0)].
        -- rewrite Hsame, (Hfresh p0 Hp0in) in Ht. discriminate.
        -- rewrite Htok0 in Ht. inversion Ht; subst t0.
           split; [congruence|].
           destruct (@Forall2_In_r _ _ _ _ _ (Some t) Hg Hin0)
             as (k0 & Hk0 & Hcl).
           unfold keys in Hk0. apply in_map_iff in Hk0.
           destruct Hk0 as ([k1 q0] & Hk1 & Hq0). cbn in Hk1. subst k1.
           destruct (Hfirst k0 q0 Hq0) as (Hq0a & pre0 & post0 & Hsplit0 & _).
           exists q0. split.
           ++ rewrite Hsplit0. apply in_or_app. right. left. reflexivity.
           ++ rewrite Hq0a. exact Hcl.
      * intros Hnone q t Hq Hcl.
        destruct Hcase as [[_ Hno]|(t0 & _ & _ & Htok0)]; [|congruence].
        rewrite Hkey. apply Hno.
        destruct (@Forall2_In_l _ _ _ _ _ (PoolInfo.address q) Hg (Hcov q Hq))
          as (o & Ho & Hcl').
        rewrite Hcl in Hcl'. inversion Hcl'; subst o. exact Ho.
  - intros Hcls.
    destruct (gather_classified (collect_pools fetched)) as (ts & Hg & Hal).
    { intros [k p0] Hin.
      destruct (Hfirst k p0 Hin) as (Hp0 & pre & post & Hsplit & _).
      cbn. rewrite <- Hp0. apply Hcls. rewrite Hsplit.
      apply in_or_app. right. left. reflexivity. }
    destruct (@assign_pool_tokens_aligned (collect_pools fetched) ts Hnd)
      as (d' & Ha & Hd').
    { revert Hal. apply Forall2_impl. intros e t [_ Ht]. exact Ht. }
    exists (values d'). split.
    + unfold get_pools_info. cbv zeta. rewrite Hdef, Hg. cbn [bind].
      rewrite Ha. reflexivity.
    + intros p Hp. unfold values in Hp. apply in_map_iff in Hp.
      destruct Hp as ([k' p'] & Heq & Hin'). cbn in Heq. subst p'.
      destruct (@Forall2_In_l _ _ _ _ _ (k', p) Hd' Hin')
        as (t & Ht & Hkey & Htok).
      cbn in Hkey, Htok.
      destruct (@Forall2_In_r _ _ _ _ _ t Hal Ht) as (e & He & Hcl & Haddr).
      apply assign_pool_tokens_kept in Ha.
      destruct (@Forall2_In_r _ _ _ _ _ (k', p) Ha Hin')
        as (e0 & He0 & Hk0 & Ha0 & _).
      cbn in Hk0, Ha0.
      exists t. split; [|exact Htok].
      rewrite Ha0, (Hinv e0 He0), <- Hk0, Hkey, Haddr. exact Hcl.
Qed.

End GetPoolsInfo.

(** * The definitions at work on the sample state *)

Section OnSample.

Local Open Scope string_scope.
Local Open Scope Q_scope.

Local Abbreviation sample_aprs fu := (SinglePool.apr_info (FarmUpdate.pool fu)).

(** The sample contract has three pools on two addresses; the pool of
    index 0 is the one kept for "0xaa". *)
Example get_pools_info_sample :
  get_pools_info (helpers := Sample.helpers) Sample.self
    (MasterChefData.pool_count Sample.md) =
  Ok [PoolInfo.set_pool_token (PoolInfo.mk "0xaa" 30 0 None None) Sample.tok_lp;
      PoolInfo.set_pool_token (PoolInfo.mk "0xbb" 10 4 None None) Sample.tok_brl].
Proof. reflexivity. Qed.

Example get_pool_metrics_sample :
  get_pool_metrics (helpers := Sample.helpers) Sample.self
    (PoolInfo.set_metrics Sample.pool_lp None) = Ok Sample.pool_lp.
Proof. reflexivity. Qed.


(** Counterexample to C6 as stated: the curve probe fails on "0xdd" with
    an exception that is not a [ValueError]; [get_token] does not go on to
    the next probe and the exception reaches the caller. *)
Lemma get_token_lets_other_errors_out :
  run_probe (helpers := Sample.helpers) ProbeCurve "0xdd" "0xmc" =
    Raise (OtherError "ContractNotFound") /\
  get_token (helpers := Sample.helpers) "0xdd" "0xmc" =
    ([ProbeCurve], Raise (OtherError "ContractNotFound")).
Proof. split; reflexivity. Qed.

(** C5, at the failing input: a pool whose token no probe matched has no
    [pool_token].  [get_token] returns [None] for its address, and then
    [get_pools_info], [get_pool_metrics] and [calculate_supply_aprs] each
    raise [AttributeError] instead of passing the pool over; the rows of the
    other pools are lost with it. *)
Theorem unclassified_pool_stops_the_run :
  get_token (helpers := Sample.helpers) "0xcc" "0xmc" = (probe_order, Ok None) /\
  get_pools_info (helpers := Sample.helpers) Sample.self_cc 2 =
    Raise AttributeError /\
  get_pool_metrics (helpers := Sample.helpers) Sample.self
    Sample.pool_unclassified = Raise AttributeError /\
  calculate_supply_aprs (helpers := Sample.helpers) Sample.self
    [Sample.pool_unclassified; Sample.pool_lp] Sample.md = Raise AttributeError /\
  calculate_supply_aprs (helpers := Sample.helpers) Sample.self
    [Sample.pool_lp; Sample.pool_unclassified] Sample.md = Raise AttributeError.
Proof.
  split; [reflexivity|]. split; [reflexivity|].
  destruct (@unclassified_pool_raises Sample.helpers Sample.self Sample.md
              Sample.pool_unclassified eq_refl) as [Hmetrics Haprs].
  split; [exact Hmetrics|]. split; [apply Haprs|].
  reflexivity.
Qed.

(** C7, at the failing input: for a single-token pool without allocation
    points [_get_single_pool_info] computes a weekly APR of zero and puts it
    in the record, next to a yearly and a daily APR of [None], where 52 times
    and a seventh of the weekly APR were due; [_get_uni_pool_info] on a pair
    in the same state fills them in. *)
Theorem idle_single_pool_has_no_yearly_apr :
  (exists fu weekly_apr,
     _get_single_pool_info (helpers := Sample.helpers) Sample.self
       Sample.pool_idle Sample.md = Ok fu /\
     AprInfo.apr_weekly (sample_aprs fu) = Some weekly_apr /\
     weekly_apr == 0 /\
     AprInfo.apr_yearly (sample_aprs fu) = None /\
     AprInfo.apr_daily (sample_aprs fu) = None) /\
  (exists fu weekly_apr,
     _get_uni_pool_info (helpers := Sample.helpers) Sample.self
       (PoolInfo.mk "0xaa" 0 0 (Some Sample.tok_lp)
          (PoolInfo.metrics Sample.pool_lp)) Sample.md = Ok fu /\
     AprInfo.apr_weekly (sample_aprs fu) = Some weekly_apr /\
     weekly_apr == 0 /\
     AprInfo.apr_yearly (sample_aprs fu) = Some (weekly_apr * 52) /\
     AprInfo.apr_daily (sample_aprs fu) = Some (weekly_apr / 7)).
Proof.
  split.
  - eexists. eexists. split; [reflexivity|].
    split; [reflexivity|]. split; [reflexivity|]. split; reflexivity.
  - eexists. eexists. split; [reflexivity|].
    split; [reflexivity|]. split; [reflexivity|]. split; reflexivity.
Qed.

(** Counterexample to C10 as stated: the probes classify "0xaa" and "0xbb"
    alike, with a token that carries the address "0xbb".  [get_pools_info]
    returns, and the pool at "0xaa" comes back without a [pool_token],
    although its address was classified. *)
Lemma get_pools_info_files_by_token_address :
  get_pools_info (helpers := Sample.helpers_alias) Sample.self 3 =
    Ok [PoolInfo.mk "0xaa" 30 0 None None;
        PoolInfo.mk "0xbb" 10 4 (Some Sample.tok_brl) None] /\
  snd (get_token (helpers := Sample.helpers_alias) "0xaa" "0xmc") =
    Ok (Some Sample.tok_brl) /\
  ~ (forall pools,
       get_pools_info (helpers := Sample.helpers_alias) Sample.self 3 = Ok pools ->
       forall p, In p pools ->
         exists t,
           snd (get_token (helpers := Sample.helpers_alias)
                  (PoolInfo.address p) "0xmc") = Ok (Some t) /\
           PoolInfo.pool_token p = Some t).
Proof.
  split; [reflexivity|]. split; [reflexivity|].
  intros H.
  destruct (H _ eq_refl (PoolInfo.mk "0xaa" 30 0 None None) (or_introl eq_refl))
    as (t & _ & Htok).
  discriminate Htok.
Qed.

End OnSample.

(** * Instances of the theorems on the sample state *)

Section Witnesses.

Local Open Scope string_scope.
Local Open Scope Q_scope.

Local Abbreviation w_aprs fu := (SinglePool.apr_info (FarmUpdate.pool fu)).

(** C1 on a pair and a single-token pool: both rows are there, with the
    weekly APR of the formula. *)
Lemma calculate_supply_aprs_weekly_apr_witness :
  MasterChefData.total_alloc_points Sample.md <> 0%Z /\
  getitem (Self.prices Sample.self) (lower REWARD_TOKEN_ADDRESS) = Ok (1 # 2) /\
  exists rows,
    calculate_supply_aprs (helpers := Sample.helpers) Sample.self
      [Sample.pool_lp; Sample.pool_brl] Sample.md = Ok rows /\
    forall p tok metrics,
      In p [Sample.pool_lp; Sample.pool_brl] ->
      PoolInfo.pool_token p = Some tok ->
      PoolToken.type tok = UNI \/ PoolToken.type tok = ERC20 ->
      PoolInfo.metrics p = Some metrics ->
      exists fu weekly_apr,
        In (format_for_db fu) rows /\
        farm_update_of (helpers := Sample.helpers) Sample.self p Sample.md =
          Ok (Some fu) /\
        SinglePool.asset_address (FarmUpdate.pool fu) = PoolToken.address tok /\
        AprInfo.apr_weekly (w_aprs fu) = Some weekly_apr /\
        weekly_apr =
          inject_Z (PoolInfo.alloc_points p)
          / inject_Z (MasterChefData.total_alloc_points Sample.md)
          * MasterChefData.rewards_per_week Sample.md * (1 # 2)
          / Metrics.staked_tvl metrics * 100 /\
        weekly_apr ==
          inject_Z (PoolInfo.alloc_points p)
          / inject_Z (MasterChefData.total_alloc_points Sample.md)
          * MasterChefData.rewards_per_week Sample.md * (1 # 2) * 100
          / Metrics.staked_tvl metrics.
Proof.
  split; [discriminate|]. split; [reflexivity|].
  apply (@calculate_supply_aprs_weekly_apr Sample.helpers Sample.self Sample.md
           [Sample.pool_lp; Sample.pool_brl] (1 # 2)).
  - discriminate.
  - reflexivity.
  - intros p [<-|[<-|[]]]; discriminate.
  - intros p tok m [<-|[<-|[]]] _ _ Hm; inversion Hm; discriminate.
Defined.


(** C4 on the single-token pool. *)
Lemma apy_yearly_is_calculate_apy_witness :
  exists fu yearly_apr,
    _get_single_pool_info (helpers := Sample.helpers) Sample.self
      Sample.pool_brl Sample.md = Ok fu /\
    AprInfo.apr_yearly (w_aprs fu) = Some yearly_apr /\
    AprInfo.apy_yearly (w_aprs fu) =
      Some (calculate_apy (Helpers := Sample.helpers) yearly_apr).
Proof.
  eexists. eexists. split; [reflexivity|]. split; [reflexivity|].
  apply (@apy_yearly_is_calculate_apy Sample.helpers Sample.self Sample.md
           Sample.pool_brl).
  - right. reflexivity.
  - reflexivity.
Defined.

(** C9 on the single-token pool without allocation points. *)
Lemma single_pool_zero_weekly_apr_gives_none_witness :
  exists fu weekly_apr,
    _get_single_pool_info (helpers := Sample.helpers) Sample.self
      Sample.pool_idle Sample.md = Ok fu /\
    PoolInfo.alloc_points Sample.pool_idle = 0%Z /\
    AprInfo.apr_weekly (w_aprs fu) = Some weekly_apr /\
    weekly_apr == 0 /\
    AprInfo.apr_daily (w_aprs fu) = None /\
    AprInfo.apr_yearly (w_aprs fu) = None /\
    AprInfo.apy_yearly (w_aprs fu) = None.
Proof.
  eexists. eexists. split; [reflexivity|]. split; [reflexivity|].
  split; [reflexivity|]. split; [reflexivity|].
  eapply (proj1 (@single_pool_zero_weekly_apr_gives_none Sample.helpers
                   Sample.self Sample.md Sample.pool_idle _ eq_refl)).
  - reflexivity.
  - reflexivity.
Defined.

(** C2 on the plain token: four probes fail with [ValueError], the fifth
    succeeds. *)
Lemma get_token_first_success_witness :
  get_token (helpers := Sample.helpers) "0xbb" "0xmc" =
  (([ProbeCurve; ProbeStableswap; ProbeUni; ProbeVault] ++ [ProbeErc20])%list,
   Ok (Some Sample.tok_brl)).
Proof.
  apply (proj1 (proj2 (@get_token_first_success Sample.helpers "0xbb" "0xmc")))
    with (post := @nil Probe).
  - reflexivity.
  - intros q [<-|[<-|[<-|[<-|[]]]]]; reflexivity.
  - reflexivity.
Defined.

(** C6 on the address no probe matches: every [ValueError] is absorbed and
    the result is [None]. *)
Lemma get_token_absorbs_ValueError_witness :
  get_token (helpers := Sample.helpers) "0xcc" "0xmc" = (probe_order, Ok None).
Proof.
  apply (proj1 (proj2 (proj2 (@get_token_absorbs_ValueError Sample.helpers
                                "0xcc" "0xmc")))).
  intros q [<-|[<-|[<-|[<-|[<-|[]]]]]]; reflexivity.
Defined.

(** C10 on the sample contract: both addresses are classified. *)
Lemma get_pools_info_one_pool_per_address_witness :
  exists pools,
    get_pools_info (helpers := Sample.helpers) Sample.self 3 = Ok pools /\
    forall p, In p pools ->
      exists t,
        snd (get_token (helpers := Sample.helpers) (PoolInfo.address p) "0xmc") =
          Ok (Some t) /\
        PoolInfo.pool_token p = Some t.
Proof.
  apply (proj2 (@get_pools_info_one_pool_per_address Sample.helpers
                  Sample.self 3)).
  intros q [<-|[<-|[<-|[]]]]; eexists; split; reflexivity.
Defined.

(** The yearly and daily APR of the staked single-token pool. *)
Lemma apr_yearly_daily_of_weekly_witness :
  exists fu weekly_apr,
    _get_single_pool_info (helpers := Sample.helpers) Sample.self
      Sample.pool_brl Sample.md = Ok fu /\
    AprInfo.apr_weekly (w_aprs fu) = Some weekly_apr /\
    ~ weekly_apr == 0 /\
    AprInfo.apr_yearly (w_aprs fu) = Some (weekly_apr * 52) /\
    AprInfo.apr_daily (w_aprs fu) = Some (weekly_apr / 7).
Proof.
  eexists. eexists. split; [reflexivity|]. split; [reflexivity|].
  assert (Hnz : forall w, Qeq_bool w 0 = false -> ~ w == 0).
  { intros w E H. apply Qeq_bool_iff in H. congruence. }
  split; [apply Hnz; reflexivity|].
  apply (@apr_yearly_daily_of_weekly Sample.helpers Sample.self Sample.md
           Sample.pool_brl).
  - right. split; [reflexivity | apply Hnz; reflexivity].
  - reflexivity.
Defined.

(** A curve pool between two others: the rows are those of the others. *)
Lemma other_type_pool_is_skipped_witness :
  get_pool_metrics (helpers := Sample.helpers) Sample.self Sample.pool_curve =
    Ok Sample.pool_curve /\
  calculate_supply_aprs (helpers := Sample.helpers) Sample.self
    ([Sample.pool_lp] ++ Sample.pool_curve :: [Sample.pool_brl])%list Sample.md =
  calculate_supply_aprs (helpers := Sample.helpers) Sample.self
    ([Sample.pool_lp] ++ [Sample.pool_brl])%list Sample.md.
Proof.
  destruct (@other_type_pool_is_skipped Sample.helpers Sample.self Sample.md
              Sample.pool_curve Sample.tok_3pool eq_refl)
    as (Hmetrics & _ & Hrows); try discriminate.
  split; [exact Hmetrics | apply Hrows].
Defined.

End Witnesses.

(** * More of the module *)

(** ** The rows of [calculate_supply_aprs] *)

Section SupplyAprsRows.

Context {helpers : Helpers}.
Variable self : Self.t.
Variable masterchef_data : MasterChefData.t.

Local Abbreviation step p := (farm_update_of self p masterchef_data).
Local Abbreviation row_of :=
  (fun p => match step p with
            | Ok (Some fu) => [format_for_db fu]
            | _ => []
            end).

Lemma supply_aprs_loop_rows (pools : list PoolInfo.t) :
  forall acc rows,
    supply_aprs_loop self pools masterchef_data acc = Ok rows ->
    rows = acc ++ flat_map row_of pools /\
    Forall (fun p => exists o, step p = Ok o) pools.
Proof.
  induction pools as [|p pools IH]; intros acc rows; simpl.
  - intros H. inversion H. rewrite app_nil_r. auto.
  - destruct (step p) as [o|e] eqn:E; cbn [bind]; [|discriminate].
    intros H. apply IH in H. destruct H as [-> Hall]. split.
    + destruct o; [rewrite <- app_assoc|]; reflexivity.
    + constructor; [eauto | exact Hall].
Qed.

Lemma flat_map_row_length (pools : list PoolInfo.t) :
  (List.length (flat_map row_of pools) <= List.length pools)%nat.
Proof.
  induction pools as [|p pools IH]; simpl; [lia|].
  rewrite length_app.
  destruct (step p) as [[fu|]|e]; simpl; lia.
Qed.

(** X3: the rows [calculate_supply_aprs] returns are the formatted farm
    updates of the pools, in the order of the pools, one at most per pool;
    and it returns only when the step of every pool returned. *)
Theorem calculate_supply_aprs_rows_in_pool_order
  (pools : list PoolInfo.t) (rows : list DbRow) :
  calculate_supply_aprs self pools masterchef_data = Ok rows ->
  rows =
    flat_map (fun p => match farm_update_of self p masterchef_data with
                       | Ok (Some fu) => [format_for_db fu]
                       | _ => []
                       end) pools /\
  (List.length rows <= List.length pools)%nat /\
  (forall p, In p pools ->
             exists o, farm_update_of self p masterchef_data = Ok o).
Proof.
  unfold calculate_supply_aprs. intros H.
  apply supply_aprs_loop_rows in H. destruct H as [Hrows Hall].
  cbn [app] in Hrows. split; [exact Hrows|]. split.
  - rewrite Hrows. apply flat_map_row_length.
  - apply Forall_forall. exact Hall.
Qed.

(** X4: the first pool whose step raises decides the outcome: the
    exception leaves [calculate_supply_aprs], and the rows built for the
    pools before it are not returned. *)
Theorem calculate_supply_aprs_first_exception
  (pre post : list PoolInfo.t) (p : PoolInfo.t) (e : exn) :
  (forall q, In q pre -> exists o, farm_update_of self q masterchef_data = Ok o) ->
  farm_update_of self p masterchef_data = Raise e ->
  calculate_supply_aprs self (pre ++ p :: post) masterchef_data = Raise e.
Proof.
  intros Hpre Hp. unfold calculate_supply_aprs.
  generalize (@nil DbRow) as acc.
  induction pre as [|q pre IH]; intros acc; simpl.
  - rewrite Hp. reflexivity.
  - destruct (Hpre q (or_introl eq_refl)) as [o Ho]. rewrite Ho. cbn [bind].
    apply IH. intros q' Hq'. apply Hpre. right. exact Hq'.
Qed.

(** The step of a pool that is not rated: it has a token, and no metrics
    or a type without a case. *)
Lemma farm_update_of_unrated (p : PoolInfo.t) (tok : PoolToken.t) :
  PoolInfo.pool_token p = Some tok ->
  PoolInfo.metrics p = None \/
  (PoolToken.type tok <> UNI /\ PoolToken.type tok <> ERC20) ->
  step p = Ok None.
Proof.
  intros Htok Hwhy. unfold farm_update_of. rewrite Htok. cbn [deref bind].
  destruct Hwhy as [Hm|[Huni Herc]].
  - rewrite Hm. destruct (PoolToken.type tok); reflexivity.
  - destruct (PoolToken.type tok); congruence.
Qed.

(** X5: when no pool is to be rated (each has a token, and either no
    metrics or a type other than UNI and ERC20), [calculate_supply_aprs]
    returns no rows, and needs neither a reward price nor a non-zero total
    of allocation points for that. *)
Theorem calculate_supply_aprs_nothing_to_rate (pools : list PoolInfo.t) :
  (forall p, In p pools ->
     exists tok,
       PoolInfo.pool_token p = Some tok /\
       (PoolInfo.metrics p = None \/
        (PoolToken.type tok <> UNI /\ PoolToken.type tok <> ERC20))) ->
  calculate_supply_aprs self pools masterchef_data = Ok [].
Proof.
  intros Hall. unfold calculate_supply_aprs.
  generalize (@nil DbRow) as acc.
  induction pools as [|p pools IH]; intros acc; simpl.
  - reflexivity.
  - destruct (Hall p (or_introl eq_refl)) as (tok & Htok & Hwhy).
    rewrite (farm_update_of_unrated p Htok Hwhy). cbn [bind].
    apply IH. intros q Hq. apply Hall. right. exact Hq.
Qed.

End SupplyAprsRows.

(** ** What the APR computation needs from its inputs *)

Section SupplyAprsInputs.

Context {helpers : Helpers}.
Variable self : Self.t.

Local Open Scope Q_scope.

Local Abbreviation rated p :=
  (exists tok m,
     PoolInfo.pool_token p = Some tok /\
     (PoolToken.type tok = UNI \/ PoolToken.type tok = ERC20) /\
     PoolInfo.metrics p = Some m).

(** Every pool is either passed over or stopped by the same exception. *)
Lemma supply_aprs_loop_common_exception
  (md : MasterChefData.t) (e : exn) (pools : list PoolInfo.t) :
  (forall p, In p pools ->
     farm_update_of self p md = Ok None \/ farm_update_of self p md = Raise e) ->
  (exists p, In p pools /\ farm_update_of self p md = Raise e) ->
  forall acc, supply_aprs_loop self pools md acc = Raise e.
Proof.
  induction pools as [|p pools IH]; intros Hall (q & Hq & Hraise) acc.
  - destruct Hq.
  - simpl. destruct (Hall p (or_introl eq_refl)) as [Hp|Hp]; rewrite Hp;
      cbn [bind]; [|reflexivity].
    apply IH.
    + intros p' Hp'. apply Hall. right. exact Hp'.
    + destruct Hq as [<-|Hq]; [congruence | eauto].
Qed.

(** A rated pool is stopped by the first thing the builders compute that
    fails; any other pool with a token is passed over. *)
Lemma farm_update_of_stopped (md : MasterChefData.t) (e : exn) (p : PoolInfo.t) :
  (forall pool_info,
     PoolInfo.metrics pool_info <> None ->
     _get_uni_pool_info self pool_info md = Raise e /\
     _get_single_pool_info self pool_info md = Raise e) ->
  PoolInfo.pool_token p <> None ->
  (farm_update_of self p md = Ok None \/ farm_update_of self p md = Raise e) /\
  (rated p -> farm_update_of self p md = Raise e).
Proof.
  intros Hbuilders Htok. unfold farm_update_of.
  destruct (PoolInfo.pool_token p) as [tok|]; [|congruence]. cbn [deref bind].
  destruct (PoolInfo.metrics p) as [m|] eqn:Em.
  - destruct (Hbuilders p) as [Hu Hs]; [congruence|].
    rewrite Hu, Hs. cbn [bind].
    split; [destruct (PoolToken.type tok); auto|].
    intros (tok' & m' & Htok' & [Ht|Ht] & _); inversion Htok'; subst tok';
      rewrite Ht; reflexivity.
  - split; [destruct (PoolToken.type tok); auto|].
    intros (tok' & m' & _ & _ & Hm'). discriminate.
Qed.

(** X6: with a token on every pool and at least one pool to rate,
    [calculate_supply_aprs] raises [ZeroDivisionError] when the total of
    allocation points is zero, and [KeyError] when the total is not zero
    and the prices hold no entry for the reward token. *)
Theorem calculate_supply_aprs_needs_total_and_price
  (md : MasterChefData.t) (pools : list PoolInfo.t) :
  (forall p, In p pools -> PoolInfo.pool_token p <> None) ->
  (exists p, In p pools /\ rated p) ->
  (MasterChefData.total_alloc_points md = 0%Z ->
   calculate_supply_aprs self pools md = Raise ZeroDivisionError) /\
  (MasterChefData.total_alloc_points md <> 0%Z ->
   getitem (Self.prices self) (lower REWARD_TOKEN_ADDRESS) = Raise KeyError ->
   calculate_supply_aprs self pools md = Raise KeyError).
Proof.
  intros Htoks (p0 & Hp0 & Hrated).
  assert (Hloop : forall e,
            (forall pool_info,
               PoolInfo.metrics pool_info <> None ->
               _get_uni_pool_info self pool_info md = Raise e /\
               _get_single_pool_info self pool_info md = Raise e) ->
            calculate_supply_aprs self pools md = Raise e).
  { intros e Hbuilders. apply supply_aprs_loop_common_exception.
    - intros p Hp. apply (@farm_update_of_stopped md e p Hbuilders (Htoks p Hp)).
    - exists p0. split; [exact Hp0|].
      apply (@farm_update_of_stopped md e p0 Hbuilders (Htoks p0 Hp0)).
      exact Hrated. }
  split.
  - intros Hzero. apply Hloop. intros pool_info Hm.
    unfold _get_uni_pool_info, _get_single_pool_info. rewrite Hzero.
    destruct (PoolInfo.metrics pool_info) as [m|]; [|congruence].
    split; reflexivity.
  - intros Hnz Hprice. apply Hloop. intros pool_info Hm.
    unfold _get_uni_pool_info, _get_single_pool_info. rewrite Hprice.
    rewrite truediv_ok by (apply inject_Z_nonzero; exact Hnz).
    destruct (PoolInfo.metrics pool_info) as [m|]; [|congruence].
    split; reflexivity.
Qed.

(** X7: of the master-chef data [calculate_supply_aprs] reads the weekly
    rewards and the total of allocation points only: the pool count and the
    reward token address the contract reported have no part in the rows (the
    price is looked up under the address the class holds). *)
Theorem calculate_supply_aprs_reads_two_fields
  (md md' : MasterChefData.t) (pools : list PoolInfo.t) :
  MasterChefData.rewards_per_week md = MasterChefData.rewards_per_week md' ->
  MasterChefData.total_alloc_points md = MasterChefData.total_alloc_points md' ->
  calculate_supply_aprs self pools md = calculate_supply_aprs self pools md'.
Proof.
  intros Hrewards Htotal.
  assert (Hstep : forall p, farm_update_of self p md = farm_update_of self p md').
  { intros p. unfold farm_update_of, _get_uni_pool_info, _get_single_pool_info.
    rewrite Hrewards, Htotal. reflexivity. }
  unfold calculate_supply_aprs. generalize (@nil DbRow) as acc.
  induction pools as [|p pools IH]; intros acc; simpl; [reflexivity|].
  rewrite Hstep.
  destruct (farm_update_of self p md') as [o|e]; cbn [bind];
    [apply IH | reflexivity].
Qed.

End SupplyAprsInputs.

(** ** The record of a rated pool *)

Lemma int_of_float_floor (x : Q) :
  0 <= x -> inject_Z (int_of_float x) <= x /\ x < inject_Z (int_of_float x) + 1.
Proof.
  destruct x as [n d]. unfold int_of_float, Qle, Qlt, Qplus, inject_Z. simpl.
  intros Hn.
  assert (Hq : Z.quot n (Z.pos d) = Z.div n (Z.pos d))
    by (apply Z.quot_div_nonneg; lia).
  rewrite Hq.
  pose proof (Z.div_mod n (Z.pos d)) as Hdm.
  pose proof (Z.mod_pos_bound n (Z.pos d)) as Hmod.
  split; nia.
Qed.

Lemma Qdiv_nonneg (a b : Q) : 0 <= a -> 0 <= b -> 0 <= a / b.
Proof.
  intros Ha Hb. unfold Qdiv. apply Qmult_le_0_compat; [exact Ha|].
  apply Qinv_le_0_compat. exact Hb.
Qed.

Lemma inject_Z_nonneg (z : Z) : (0 <= z)%Z -> 0 <= inject_Z z.
Proof. intros Hz. unfold Qle. simpl. lia. Qed.

Section FarmUpdateRecord.

Context {helpers : Helpers}.
Variable self : Self.t.
Variable masterchef_data : MasterChefData.t.

Local Open Scope Q_scope.

Local Abbreviation the_pool fu := (FarmUpdate.pool fu).

(** The fields of the record that say which pool it is about. *)
Local Abbreviation describes fu pool_info tok m kind :=
  (SinglePool.asset (the_pool fu) = PoolToken.symbol tok /\
   SinglePool.asset_address (the_pool fu) = PoolToken.address tok /\
   SinglePool.yield_type (the_pool fu) = kind /\
   SinglePool.tvl_staked (the_pool fu) = Some (int_of_float (Metrics.staked_tvl m)) /\
   PoolFees.deposit_fee (SinglePool.fees (the_pool fu)) =
     PoolInfo.deposit_fee pool_info /\
   PoolFees.withdraw_fee (SinglePool.fees (the_pool fu)) = 0%Z).

Lemma uni_pool_info_describes (pool_info : PoolInfo.t) (fu : FarmUpdate.t)
  (tok : PoolToken.t) (m : Metrics.t) :
  PoolInfo.pool_token pool_info = Some tok ->
  PoolInfo.metrics pool_info = Some m ->
  _get_uni_pool_info self pool_info masterchef_data = Ok fu ->
  describes fu pool_info tok m LP_STAKE.
Proof.
  intros Htok Hm. unfold _get_uni_pool_info. rewrite Htok, Hm.
  cbn [deref bind].
  destruct (truediv (inject_Z _) _); cbn [bind]; [|discriminate].
  destruct (getitem _ _); cbn [bind]; [|discriminate].
  destruct (truediv _ (Metrics.staked_tvl m)); cbn [bind]; [|discriminate].
  intros H. inversion H. repeat split.
Qed.

Lemma single_pool_info_describes (pool_info : PoolInfo.t) (fu : FarmUpdate.t)
  (tok : PoolToken.t) (m : Metrics.t) :
  PoolInfo.pool_token pool_info = Some tok ->
  PoolInfo.metrics pool_info = Some m ->
  _get_single_pool_info self pool_info masterchef_data = Ok fu ->
  describes fu pool_info tok m SINGLE_STAKE.
Proof.
  intros Htok Hm. unfold _get_single_pool_info. rewrite Htok, Hm.
  destruct (truediv (inject_Z _) _); cbn [bind]; [|discriminate].
  destruct (getitem _ _); cbn [bind]; [|discriminate].
  destruct (truediv _ (Metrics.staked_tvl m)); cbn [deref bind]; [|discriminate].
  intros H. inversion H. repeat split.
Qed.

(** A farm update comes from a rated pool, through the builder of its
    type. *)
Lemma farm_update_of_some_inv (pool_info : PoolInfo.t) (fu : FarmUpdate.t) :
  farm_update_of self pool_info masterchef_data = Ok (Some fu) ->
  exists tok m,
    PoolInfo.pool_token pool_info = Some tok /\
    PoolInfo.metrics pool_info = Some m /\
    ((PoolToken.type tok = UNI /\
      _get_uni_pool_info self pool_info masterchef_data = Ok fu) \/
     (PoolToken.type tok = ERC20 /\
      _get_single_pool_info self pool_info masterchef_data = Ok fu)).
Proof.
  unfold farm_update_of.
  destruct (PoolInfo.pool_token pool_info) as [tok|]; cbn [deref bind];
    [|discriminate].
  destruct (PoolToken.type tok) eqn:Etype; try discriminate;
    (destruct (PoolInfo.metrics pool_info) as [m|] eqn:Em; [|discriminate]).
  - destruct (_get_uni_pool_info self pool_info masterchef_data) as [fu'|];
      cbn [bind]; [|discriminate].
    intros H. inversion H; subst fu'. exists tok, m. auto.
  - destruct (_get_single_pool_info self pool_info masterchef_data) as [fu'|];
      cbn [bind]; [|discriminate].
    intros H. inversion H; subst fu'. exists tok, m. auto.
Qed.

(** X8: the farm update of a pool names the pool's token (symbol and
    address), carries the pool's deposit fee and a withdraw fee of zero, is
    an LP stake for a UNI token and a single stake for an ERC20 token, and
    reports as staked TVL the whole units of the metrics' TVL: for a TVL
    that is not negative, the largest integer not above it. *)
Theorem farm_update_describes_its_pool
  (pool_info : PoolInfo.t) (fu : FarmUpdate.t) :
  farm_update_of self pool_info masterchef_data = Ok (Some fu) ->
  exists tok m tvl,
    PoolInfo.pool_token pool_info = Some tok /\
    PoolInfo.metrics pool_info = Some m /\
    SinglePool.asset (the_pool fu) = PoolToken.symbol tok /\
    SinglePool.asset_address (the_pool fu) = PoolToken.address tok /\
    SinglePool.yield_type (the_pool fu) =
      match PoolToken.type tok with UNI => LP_STAKE | _ => SINGLE_STAKE end /\
    PoolFees.deposit_fee (SinglePool.fees (the_pool fu)) =
      PoolInfo.deposit_fee pool_info /\
    PoolFees.withdraw_fee (SinglePool.fees (the_pool fu)) = 0%Z /\
    SinglePool.tvl_staked (the_pool fu) = Some tvl /\
    (0 <= Metrics.staked_tvl m ->
     inject_Z tvl <= Metrics.staked_tvl m /\ Metrics.staked_tvl m < inject_Z tvl + 1).
Proof.
  intros H. apply farm_update_of_some_inv in H.
  destruct H as (tok & m & Htok & Hm & Hbuilt).
  exists tok, m, (int_of_float (Metrics.staked_tvl m)).
  assert (Hd : describes fu pool_info tok m
                 match PoolToken.type tok with UNI => LP_STAKE | _ => SINGLE_STAKE end).
  { destruct Hbuilt as [[Ht Hb]|[Ht Hb]]; rewrite Ht.
    - apply (uni_pool_info_describes _ Htok Hm Hb).
    - apply (single_pool_info_describes _ Htok Hm Hb). }
  destruct Hd as (Ha & Haa & Hy & Htvl & Hdf & Hwf).
  repeat split; auto; apply int_of_float_floor; assumption.
Qed.

(** X9: with allocation points, weekly rewards, reward price and staked
    TVL that are not negative, no APR of a farm update is negative: not the
    weekly, the daily or the yearly one. *)
Theorem farm_update_aprs_not_negative
  (pool_info : PoolInfo.t) (fu : FarmUpdate.t) :
  farm_update_of self pool_info masterchef_data = Ok (Some fu) ->
  (0 <= PoolInfo.alloc_points pool_info)%Z ->
  (0 <= MasterChefData.total_alloc_points masterchef_data)%Z ->
  0 <= MasterChefData.rewards_per_week masterchef_data ->
  (forall price,
     getitem (Self.prices self) (lower REWARD_TOKEN_ADDRESS) = Ok price ->
     0 <= price) ->
  (forall m, PoolInfo.metrics pool_info = Some m -> 0 <= Metrics.staked_tvl m) ->
  let aprs := SinglePool.apr_info (the_pool fu) in
  (forall w, AprInfo.apr_weekly aprs = Some w -> 0 <= w) /\
  (forall d, AprInfo.apr_daily aprs = Some d -> 0 <= d) /\
  (forall y, AprInfo.apr_yearly aprs = Some y -> 0 <= y).
Proof.
  intros H Halloc Htotal Hrewards Hprice Htvl aprs. subst aprs.
  apply farm_update_of_some_inv in H.
  destruct H as (tok & m & Htok & Hm & Hbuilt).
  assert (Hw : forall price,
            getitem (Self.prices self) (lower REWARD_TOKEN_ADDRESS) = Ok price ->
            0 <= inject_Z (PoolInfo.alloc_points pool_info)
                 / inject_Z (MasterChefData.total_alloc_points masterchef_data)
                 * MasterChefData.rewards_per_week masterchef_data * price
                 / Metrics.staked_tvl m * 100).
  { intros price Hp.
    apply Qmult_le_0_compat; [|discriminate].
    apply Qdiv_nonneg; [|apply Htvl; exact Hm].
    apply Qmult_le_0_compat; [|apply Hprice; exact Hp].
    apply Qmult_le_0_compat; [|exact Hrewards].
    apply Qdiv_nonneg; apply inject_Z_nonneg; assumption. }
  destruct Hbuilt as [[_ Hb]|[_ Hb]].
  - apply uni_pool_info_inv in Hb.
    destruct Hb as (m' & price & tok' & Hm' & Hp & _ & _ & _ & _ & Haprs).
    rewrite Hm in Hm'. inversion Hm'; subst m'. rewrite Haprs. cbn.
    specialize (Hw price Hp).
    repeat split; intros q Hq; inversion Hq; subst q.
    + exact Hw.
    + apply Qdiv_nonneg; [exact Hw | discriminate].
    + apply Qmult_le_0_compat; [exact Hw | discriminate].
  - apply single_pool_info_inv in Hb.
    destruct Hb as (price & tok' & w & Hp & _ & _ & Hwk & _ & Haprs).
    rewrite Hm in Hwk. destruct Hwk as [_ ->]. rewrite Haprs. cbn.
    specialize (Hw price Hp).
    destruct (float_truthy _); cbn;
      repeat split; intros q Hq; inversion Hq; subst q;
      solve [ exact Hw
            | apply Qdiv_nonneg; [exact Hw | discriminate]
            | apply Qmult_le_0_compat; [exact Hw | discriminate] ].
Qed.

End FarmUpdateRecord.

(** ** The outcomes of [get_token] *)

Section GetTokenOutcomes.

Context {helpers : Helpers}.
Variables address staking_address : string.

Local Abbreviation probe p := (run_probe p address staking_address).
Local Abbreviation chain ps := (try_probes ps address staking_address).

Lemma try_probes_none (ps : list Probe) :
  snd (chain ps) = Ok None ->
  (forall q, In q ps -> probe q = Raise ValueError) /\ fst (chain ps) = ps.
Proof.
  induction ps as [|p ps IH]; simpl.
  - intros _. split; [intros q []|reflexivity].
  - destruct (probe p) as [info|e] eqn:Ep; simpl; [discriminate|].
    destruct e; simpl; try discriminate.
    intros H. destruct (IH H) as [Hall Hlog]. split.
    + intros q [<-|Hq]; [exact Ep | apply Hall; exact Hq].
    + rewrite Hlog. reflexivity.
Qed.

Lemma try_probes_raise (ps : list Probe) (e : exn) :
  snd (chain ps) = Raise e ->
  exists pre p post,
    ps = pre ++ p :: post /\
    (forall q, In q pre -> probe q = Raise ValueError) /\
    probe p = Raise e /\ e <> ValueError.
Proof.
  induction ps as [|p ps IH]; simpl; [discriminate|].
  destruct (probe p) as [info|e'] eqn:Ep; simpl; [discriminate|].
  assert (Hstop : e' <> ValueError ->
                  @Raise (option PoolToken.t) e' = Raise e ->
                  exists pre p0 post,
                    p :: ps = pre ++ p0 :: post /\
                    (forall q, In q pre -> probe q = Raise ValueError) /\
                    probe p0 = Raise e /\ e <> ValueError).
  { intros Hne H. inversion H; subst e'.
    exists [], p, ps. repeat split; auto. intros q []. }
  destruct e'; simpl; try (apply Hstop; discriminate).
  intros H. destruct (IH H) as (pre & p0 & post & Hps & Hpre & Hp0 & Hne).
  exists (p :: pre), p0, post. subst ps. repeat split; auto.
  intros q [<-|Hq]; [exact Ep | apply Hpre; exact Hq].
Qed.

(** X10: [get_token] returns [None] exactly when all five probes raised
    [ValueError], and has then tried them all; it raises an exception
    exactly when a probe raised it, the exception is not a [ValueError], and
    every probe before that one raised [ValueError]. *)
Theorem get_token_outcomes :
  (snd (get_token address staking_address) = Ok None <->
   forall q, In q probe_order -> probe q = Raise ValueError) /\
  (snd (get_token address staking_address) = Ok None ->
   fst (get_token address staking_address) = probe_order) /\
  (forall e,
     snd (get_token address staking_address) = Raise e <->
     exists pre p post,
       probe_order = pre ++ p :: post /\
       (forall q, In q pre -> probe q = Raise ValueError) /\
       probe p = Raise e /\ e <> ValueError).
Proof.
  rewrite get_token_chain. split; [|split].
  - split.
    + intros H. apply (try_probes_none probe_order H).
    + intros Hall.
      rewrite <- (app_nil_r probe_order).
      rewrite (try_probes_skip address staking_address probe_order [] Hall).
      reflexivity.
  - intros H. apply (try_probes_none probe_order H).
  - intros e. split.
    + apply try_probes_raise.
    + intros (pre & p & post & Horder & Hpre & Hp & Hne).
      rewrite Horder,
        (try_probes_skip address staking_address pre (p :: post) Hpre).
      rewrite try_probes_stop by (rewrite Hp; congruence).
      rewrite Hp. reflexivity.
Qed.

End GetTokenOutcomes.

(** ** When [get_pools_info] returns, and what *)

Lemma gather_total {A B : Type} (f : A -> result B) (P : B -> Prop) (l : list A) :
  (forall a, In a l -> exists b, f a = Ok b /\ P b) ->
  exists l', gather (map f l) = Ok l' /\ Forall P l'.
Proof.
  induction l as [|a l IH]; intros Hall.
  - exists []. split; [reflexivity | constructor].
  - destruct (Hall a (or_introl eq_refl)) as (b & Hb & HP).
    destruct IH as (bs & Hbs & HPs); [intros x Hx; apply Hall; right; exact Hx|].
    exists (b :: bs). split; [|constructor; assumption].
    cbn [map gather]. rewrite Hb. cbn [bind]. rewrite Hbs. reflexivity.
Qed.

Section GetPoolsInfoReturns.

Context {helpers : Helpers}.
Variable self : Self.t.

Local Abbreviation classify a :=
  (snd (get_token a (Contract.address (Self.contract self)))).
Local Abbreviation same_metrics :=
  (fun e e' : string * PoolInfo.t =>
     PoolInfo.metrics (snd e') = PoolInfo.metrics (snd e)).

(** One assignment: it needs the token's address among the keys, and
    keeps the keys and the metrics. *)
Lemma assign_pool_token_spec (d : dict PoolInfo.t) (tok : PoolToken.t) :
  (In (PoolToken.address tok) (keys d) ->
   exists d', assign_pool_token d tok = Ok d' /\ keys d' = keys d /\
              Forall2 same_metrics d d') /\
  (~ In (PoolToken.address tok) (keys d) ->
   assign_pool_token d tok = Raise KeyError).
Proof.
  induction d as [|[k p] d [IHin IHout]]; cbn.
  - split; [intros [] | reflexivity].
  - destruct (String.eqb k (PoolToken.address tok)) eqn:E.
    + split.
      * intros _. eexists. split; [reflexivity|]. split; [reflexivity|].
        constructor; [reflexivity|]. clear. induction d; constructor; auto.
      * intros Hout. apply String.eqb_eq in E. tauto.
    + apply String.eqb_neq in E. split.
      * intros [Hk|Hin]; [congruence|].
        destruct (IHin Hin) as (d' & Hd' & Hkeys & Hm).
        rewrite Hd'. cbn [bind]. eexists. split; [reflexivity|].
        split; [unfold keys in *; cbn; rewrite Hkeys; reflexivity|].
        constructor; [reflexivity | exact Hm].
      * intros Hout. rewrite IHout by tauto. reflexivity.
Qed.

(** The second loop returns exactly when every token is there and has a
    key; it keeps the keys and the metrics. *)
Lemma assign_pool_tokens_spec (toks : list (option PoolToken.t)) :
  forall d,
    ((exists d', assign_pool_tokens d toks = Ok d') <->
     Forall (fun o => exists t, o = Some t /\ In (PoolToken.address t) (keys d))
       toks) /\
    (forall d', assign_pool_tokens d toks = Ok d' ->
                keys d' = keys d /\ Forall2 same_metrics d d').
Proof.
  induction toks as [|o toks IH]; intros d; cbn.
  - split; [split; [constructor | eauto]|].
    intros d' H. inversion H; subst d'. split; [reflexivity|].
    clear. induction d; constructor; auto.
  - destruct o as [t|]; cbn [deref bind].
    + destruct (assign_pool_token_spec d t) as [Hin Hout].
      destruct (in_dec string_dec (PoolToken.address t) (keys d)) as [Hk|Hk].
      * destruct (Hin Hk) as (d1 & Hd1 & Hkeys & Hm1). rewrite Hd1. cbn [bind].
        destruct (IH d1) as [Hiff Hkeep]. rewrite Hkeys in Hiff. split.
        -- rewrite Hiff. split.
           ++ intros H. constructor; [eauto | exact H].
           ++ intros H. inversion H. assumption.
        -- intros d' Hd'. destruct (Hkeep d' Hd') as [Hk' Hm'].
           split; [congruence|].
           revert Hm1 Hm'. clear. intros Hm1. revert d'.
           induction Hm1 as [|x y l l' Hxy _ IHm]; intros d' Hm';
             inversion Hm'; subst; constructor; [congruence | auto].
      * rewrite (Hout Hk). cbn [bind]. split; [|discriminate].
        split; [intros [d' H]; discriminate|].
        intros H. inversion H as [|? ? (t' & Ht' & Hin') _]; subst.
        inversion Ht'; subst t'. contradiction.
    + split; [|discriminate].
      split; [intros [d' H]; discriminate|].
      intros H. inversion H as [|? ? (t' & Ht' & _) _]. discriminate.
Qed.

Lemma collect_pools_keys (pools : list PoolInfo.t) (k : string) :
  In k (keys (collect_pools pools)) <-> In k (map PoolInfo.address pools).
Proof.
  destruct (collect_pools_spec pools) as (_ & Hfirst & Hcov). split.
  - intros Hk. unfold keys in Hk. apply in_map_iff in Hk.
    destruct Hk as ([k' p] & <- & Hin).
    destruct (Hfirst k' p Hin) as (Ha & pre & post & Hsplit & _).
    cbn. rewrite <- Ha. apply in_map. rewrite Hsplit.
    apply in_or_app. right. left. reflexivity.
  - intros Hk. apply in_map_iff in Hk. destruct Hk as (q & <- & Hq).
    apply Hcov. exact Hq.
Qed.

(** X11: [get_pools_info] returns exactly when the address of every pool
    it read is classified (no probe lets an exception out, and the result is
    not [None]) by a token whose address is the address of one of the pools
    read. *)
Theorem get_pools_info_returns_iff (pool_count : Z) :
  let fetched := map (get_pool_info self) (range pool_count) in
  (exists pools, get_pools_info self pool_count = Ok pools) <->
  (forall q, In q fetched ->
     exists t, classify (PoolInfo.address q) = Ok (Some t) /\
               In (PoolToken.address t) (map PoolInfo.address fetched)).
Proof.
  intros fetched.
  assert (Hdef : map (get_pool_info self) (range pool_count) = fetched)
    by reflexivity.
  clearbody fetched.
  unfold get_pools_info. cbv zeta. rewrite Hdef.
  set (d := collect_pools fetched). split.
  - intros [pools H].
    apply bind_ok_inv in H. destruct H as (toks & Hg & H).
    apply bind_ok_inv in H. destruct H as (d' & Ha & _).
    apply gather_ok_inv in Hg.
    assert (Hall : Forall (fun o => exists t, o = Some t /\
                                    In (PoolToken.address t) (keys d)) toks).
    { apply (assign_pool_tokens_spec toks d). eauto. }
    intros q Hq.
    assert (Hk : In (PoolInfo.address q) (keys d))
      by (apply collect_pools_keys; apply in_map; exact Hq).
    destruct (@Forall2_In_l _ _ _ _ _ (PoolInfo.address q) Hg Hk)
      as (o & Ho & Hcl).
    rewrite Forall_forall in Hall.
    destruct (Hall o Ho) as (t & -> & Hin).
    exists t. split; [exact Hcl|]. apply collect_pools_keys. exact Hin.
  - intros Hcls.
    destruct (@gather_total _ _ (fun addr => classify addr)
                (fun o => exists t, o = Some t /\
                          In (PoolToken.address t) (keys d)) (keys d))
      as (toks & Hg & Hall).
    { intros k Hk. apply collect_pools_keys in Hk. apply in_map_iff in Hk.
      destruct Hk as (q & <- & Hq).
      destruct (Hcls q Hq) as (t & Ht & Hin).
      exists (Some t). split; [exact Ht|].
      exists t. split; [reflexivity|]. apply collect_pools_keys. exact Hin. }
    apply (assign_pool_tokens_spec toks d) in Hall. destruct Hall as [d' Hd'].
    exists (values d'). rewrite Hg. cbn [bind]. rewrite Hd'. reflexivity.
Qed.

Lemma get_pool_info_metrics (pool_index : Z) :
  PoolInfo.metrics (get_pool_info self pool_index) = None.
Proof.
  unfold get_pool_info.
  destruct (Contract.poolInfo (Self.contract self) pool_index)
    as [[[[lp ap] lrb] abs] df].
  reflexivity.
Qed.

(** X12: [get_pools_info] returns no more pools than the pool count (none
    for a count of zero or below), and leaves the metrics of every pool
    unset. *)
Theorem get_pools_info_size_and_metrics
  (pool_count : Z) (pools : list PoolInfo.t) :
  get_pools_info self pool_count = Ok pools ->
  (List.length pools <= Z.to_nat pool_count)%nat /\
  ((pool_count <= 0)%Z -> pools = []) /\
  (forall p, In p pools -> PoolInfo.metrics p = None).
Proof.
  unfold get_pools_info. cbv zeta.
  set (fetched := map (get_pool_info self) (range pool_count)).
  set (d := collect_pools fetched).
  intros H.
  apply bind_ok_inv in H. destruct H as (toks & _ & H).
  apply bind_ok_inv in H. destruct H as (d' & Ha & H).
  inversion H; subst pools; clear H.
  destruct (proj2 (assign_pool_tokens_spec toks d) d' Ha) as [Hkeys Hm].
  assert (Hlen : (List.length (values d') <= Z.to_nat pool_count)%nat).
  { unfold values. rewrite length_map, <- (length_map fst).
    fold (keys d'). rewrite Hkeys.
    replace (Z.to_nat pool_count) with (List.length (map PoolInfo.address fetched)).
    - apply NoDup_incl_length.
      + apply collect_pools_spec.
      + intros k Hk. apply collect_pools_keys. exact Hk.
    - unfold fetched, range. rewrite !length_map, length_seq. reflexivity. }
  split; [exact Hlen|]. split.
  - intros Hle. replace (Z.to_nat pool_count) with 0%nat in Hlen by lia.
    destruct (values d'); [reflexivity | simpl in Hlen; lia].
  - intros p Hp. unfold values in Hp. apply in_map_iff in Hp.
    destruct Hp as (e' & <- & He').
    destruct (@Forall2_In_r _ _ _ _ _ e' Hm He') as ([k p0] & He & Hsame).
    cbn in Hsame. rewrite Hsame.
    destruct (collect_pools_spec fetched) as (_ & Hfirst & _).
    destruct (Hfirst k p0 He) as (_ & pre & post & Hsplit & _).
    assert (Hin : In p0 fetched)
      by (rewrite Hsplit; apply in_or_app; right; left; reflexivity).
    unfold fetched in Hin. apply in_map_iff in Hin.
    destruct Hin as (i & <- & _). apply get_pool_info_metrics.
Qed.

End GetPoolsInfoReturns.

(** ** [get_pool_metrics] *)

Section GetPoolMetrics.

Context {helpers : Helpers}.
Variable self : Self.t.

(** The pool [get_pool_metrics] returns: the pool it was given, with the
    metrics of the helper for the type of its token. *)
Lemma get_pool_metrics_inv (pool pool' : PoolInfo.t) :
  get_pool_metrics self pool = Ok pool' ->
  exists tok,
    PoolInfo.pool_token pool = Some tok /\
    match PoolToken.type tok with
    | ERC20 =>
        exists metrics,
          get_erc20_metrics (Self.prices self) tok = Ok metrics /\
          pool' = PoolInfo.set_metrics pool metrics
    | UNI =>
        exists metrics,
          get_uni_metrics (Self.tokens self) (Self.prices self) tok = Ok metrics /\
          pool' = PoolInfo.set_metrics pool metrics
    | _ => pool' = pool
    end.
Proof.
  unfold get_pool_metrics.
  destruct (PoolInfo.pool_token pool) as [tok|] eqn:Etok; cbn [deref bind];
    [|discriminate].
  intros H. exists tok. split; [reflexivity|].
  destruct (PoolToken.type tok) eqn:Etype; cbn [bind] in H;
    try (rewrite Etok in H; cbn [deref bind] in H; rewrite Etype in H).
  - inversion H. reflexivity.
  - inversion H. reflexivity.
  - destruct (get_uni_metrics _ _ tok) as [m|]; cbn [bind] in H; [|discriminate].
    inversion H. eauto.
  - inversion H. reflexivity.
  - destruct (get_erc20_metrics _ tok) as [m|]; cbn [bind] in H; [|discriminate].
    cbn [PoolInfo.set_metrics PoolInfo.pool_token deref bind] in H.
    rewrite Etok in H. cbn [deref bind] in H. rewrite Etype in H.
    inversion H. eauto.
Qed.

(** X13: [get_pool_metrics] returns only for a pool that has a token; it
    changes nothing of the pool but the metrics, which become what the
    metrics helper for the type of the token returned (and stay as they were
    for the other types); run again on its own result it returns that
    result. *)
Theorem get_pool_metrics_sets_metrics_only (pool pool' : PoolInfo.t) :
  get_pool_metrics self pool = Ok pool' ->
  PoolInfo.pool_token pool <> None /\
  PoolInfo.address pool' = PoolInfo.address pool /\
  PoolInfo.alloc_points pool' = PoolInfo.alloc_points pool /\
  PoolInfo.deposit_fee pool' = PoolInfo.deposit_fee pool /\
  PoolInfo.pool_token pool' = PoolInfo.pool_token pool /\
  (forall tok, PoolInfo.pool_token pool = Some tok ->
     match PoolToken.type tok with
     | ERC20 =>
         get_erc20_metrics (Self.prices self) tok = Ok (PoolInfo.metrics pool')
     | UNI =>
         get_uni_metrics (Self.tokens self) (Self.prices self) tok =
         Ok (PoolInfo.metrics pool')
     | _ => PoolInfo.metrics pool' = PoolInfo.metrics pool
     end) /\
  get_pool_metrics self pool' = Ok pool'.
Proof.
  intros H. destruct (get_pool_metrics_inv _ H) as (tok & Htok & Hshape).
  split; [congruence|].
  assert (Hframe :
            PoolInfo.address pool' = PoolInfo.address pool /\
            PoolInfo.alloc_points pool' = PoolInfo.alloc_points pool /\
            PoolInfo.deposit_fee pool' = PoolInfo.deposit_fee pool /\
            PoolInfo.pool_token pool' = PoolInfo.pool_token pool).
  { destruct (PoolToken.type tok);
      try (subst pool'; auto);
      destruct Hshape as (m & _ & ->); auto. }
  destruct Hframe as (Ha & Hp & Hf & Ht).
  repeat split; auto.
  - intros tok' Htok'. rewrite Htok in Htok'. inversion Htok'; subst tok'.
    destruct (PoolToken.type tok);
      try (subst pool'; reflexivity);
      destruct Hshape as (m & Hm & ->); exact Hm.
  - unfold get_pool_metrics. rewrite Ht, Htok. cbn [deref bind].
    destruct (PoolToken.type tok) eqn:Etype; cbn [bind];
      try (rewrite Ht, Htok; cbn [deref bind]; rewrite Etype; reflexivity).
    + destruct Hshape as (m & Hm & ->).
      rewrite Ht, Htok. cbn [deref bind]. rewrite Etype, Hm. reflexivity.
    + destruct Hshape as (m & Hm & ->). rewrite Hm. cbn [bind].
      cbn [PoolInfo.set_metrics PoolInfo.pool_token].
      rewrite Htok. cbn [deref bind]. rewrite Etype. reflexivity.
Qed.

End GetPoolMetrics.

(** ** [get_tokens] *)

Lemma lower_ascii_idempotent (c : ascii) :
  lower_ascii (lower_ascii c) = lower_ascii c.
Proof.
  destruct c as [[] [] [] [] [] [] [] []]; reflexivity.
Qed.

Lemma lower_idempotent (s : string) : lower (lower s) = lower s.
Proof.
  induction s as [|c s IH]; simpl; [reflexivity|].
  rewrite lower_ascii_idempotent, IH. reflexivity.
Qed.

Section GetTokens.

Context {helpers : Helpers}.
Variable list_of_set : list string -> list string.
Variable self : Self.t.

Local Abbreviation classify a :=
  (snd (get_token a (Contract.address (Self.contract self)))).
Local Abbreviation extend :=
  (fun tokens_addresses pool =>
     match PoolInfo.pool_token pool with
     | Some pool_token => tokens_addresses ++ PoolToken.tokens pool_token
     | None => tokens_addresses
     end).

Lemma extend_In (pools : list PoolInfo.t) :
  forall acc a,
    In a (fold_left extend pools acc) <->
    In a acc \/
    exists pool tok,
      In pool pools /\ PoolInfo.pool_token pool = Some tok /\
      In a (PoolToken.tokens tok).
Proof.
  induction pools as [|p pools IH]; intros acc a; simpl.
  - split; [auto | intros [H|(pool & tok & [] & _)]; exact H].
  - rewrite IH. split.
    + intros [Hacc|(pool & tok & Hin & Htok & Ha)].
      * destruct (PoolInfo.pool_token p) as [tok|] eqn:Etok; [|auto].
        apply in_app_or in Hacc. destruct Hacc as [Hacc|Hp]; [auto|].
        right. exists p, tok. auto.
      * right. exists pool, tok. auto.
    + intros [Hacc|(pool & tok & [<-|Hin] & Htok & Ha)].
      * left. destruct (PoolInfo.pool_token p); [apply in_or_app|]; auto.
      * left. rewrite Htok. apply in_or_app. auto.
      * right. exists pool, tok. auto.
Qed.

Lemma underlying_addresses_In (pools : list PoolInfo.t) (a : string) :
  In a (underlying_addresses pools) <->
  exists pool tok,
    In pool pools /\ PoolInfo.pool_token pool = Some tok /\
    In a (PoolToken.tokens tok).
Proof.
  unfold underlying_addresses. rewrite extend_In.
  split; [intros [[]|H]; exact H | auto].
Qed.

(** The last loop: it returns when no token is missing, and files each
    token under its address in lower case unless the key is taken. *)
Lemma index_tokens_spec (toks : list (option PoolToken.t)) :
  forall acc,
    (In None toks -> index_tokens acc toks = Raise AttributeError) /\
    (~ In None toks ->
     exists d,
       index_tokens acc toks = Ok d /\
       (NoDup (keys acc) -> NoDup (keys d)) /\
       (forall k t, In (k, t) d ->
                    In (k, t) acc \/
                    (In (Some t) toks /\ k = lower (PoolToken.address t))) /\
       (forall k, In k (keys acc) -> In k (keys d)) /\
       (forall t, In (Some t) toks ->
                  In (lower (PoolToken.address t)) (keys d))).
Proof.
  induction toks as [|o toks IH]; intros acc.
  - split; [intros []|]. intros _. exists acc. simpl.
    repeat split; auto. intros t [].
  - destruct o as [t|]; cbn [index_tokens deref bind].
    + destruct (IH (setdefault acc (lower (PoolToken.address t)) t))
        as [IHnone IHall].
      split.
      * intros [H|H]; [discriminate | apply IHnone; exact H].
      * intros Hnone.
        destruct IHall as (d & Hd & Hnd & Hent & Hold & Hnew);
          [intros H; apply Hnone; right; exact H|].
        exists d. split; [exact Hd|]. split; [|split; [|split]].
        -- intros Hacc. apply Hnd. apply setdefault_NoDup. exact Hacc.
        -- intros k t' Hin. destruct (Hent k t' Hin) as [Hset|[Hin' Hk]].
           ++ apply setdefault_In in Hset.
              destruct Hset as [Hacc|[Heq _]]; [auto|].
              inversion Heq; subst. right. split; [left|]; reflexivity.
           ++ right. split; [right|]; assumption.
        -- intros k Hk. apply Hold. apply setdefault_keys_old. exact Hk.
        -- intros t' [Heq|Hin]; [|apply Hnew; exact Hin].
           inversion Heq; subst t'. apply Hold. apply setdefault_keys_new.
    + split; [reflexivity|]. intros Hnone. exfalso. apply Hnone. left. reflexivity.
Qed.

(** X14: the dictionary [get_tokens] returns has one entry per key; every
    entry is filed under the address of its token in lower case, and its
    token is the classification of an underlying token address of one of
    the pools; and every such address has its classification's key in the
    dictionary.  This holds for any order in which the set of addresses is
    listed. *)
Theorem get_tokens_entries
  (pools : list PoolInfo.t) (tokens : dict PoolToken.t) :
  (forall l a, In a (list_of_set l) <-> In a l) ->
  get_tokens list_of_set self pools = Ok tokens ->
  NoDup (keys tokens) /\
  (forall k t,
     In (k, t) tokens ->
     k = lower (PoolToken.address t) /\ lower k = k /\
     exists pool tok addr,
       In pool pools /\ PoolInfo.pool_token pool = Some tok /\
       In addr (PoolToken.tokens tok) /\ classify addr = Ok (Some t)) /\
  (forall pool tok addr,
     In pool pools -> PoolInfo.pool_token pool = Some tok ->
     In addr (PoolToken.tokens tok) ->
     exists t, classify addr = Ok (Some t) /\
               In (lower (PoolToken.address t)) (keys tokens)).
Proof.
  intros Hset. unfold get_tokens. cbv zeta. intros H.
  apply bind_ok_inv in H. destruct H as (toks & Hg & Hidx).
  apply gather_ok_inv in Hg.
  destruct (index_tokens_spec toks []) as [Hnone Hall].
  assert (Hsome : ~ In None toks).
  { intros Hin. rewrite (Hnone Hin) in Hidx. discriminate. }
  destruct (Hall Hsome) as (d & Hd & Hnd & Hent & _ & Hnew).
  rewrite Hd in Hidx. inversion Hidx; subst d; clear Hidx.
  split; [apply Hnd; constructor|]. split.
  - intros k t Hin. destruct (Hent k t Hin) as [[]|[Hin' ->]].
    split; [reflexivity|]. split; [apply lower_idempotent|].
    destruct (@Forall2_In_r _ _ _ _ _ (Some t) Hg Hin') as (addr & Haddr & Hcl).
    apply (proj1 (Hset _ _)) in Haddr.
    apply underlying_addresses_In in Haddr.
    destruct Haddr as (pool & tok & Hpool & Htok & Ha).
    exists pool, tok, addr. auto.
  - intros pool tok addr Hpool Htok Ha.
    assert (Haddr : In addr (list_of_set (underlying_addresses pools))).
    { apply (proj2 (Hset _ _)). apply underlying_addresses_In.
      exists pool, tok. auto. }
    destruct (@Forall2_In_l _ _ _ _ _ addr Hg Haddr) as (o & Ho & Hcl).
    destruct o as [t|]; [|contradiction].
    exists t. split; [exact Hcl | apply Hnew; exact Ho].
Qed.

(** X15: [get_tokens] passes over a pool that has no token; and when the
    classification of every underlying address returns but one of them
    returns [None], it raises [AttributeError]. *)
Theorem get_tokens_missing_tokens :
  (forall l a, In a (list_of_set l) <-> In a l) ->
  (forall pre p post,
     PoolInfo.pool_token p = None ->
     get_tokens list_of_set self (pre ++ p :: post) =
     get_tokens list_of_set self (pre ++ post)) /\
  (forall pools,
     (forall a, In a (underlying_addresses pools) -> exists o, classify a = Ok o) ->
     (exists a, In a (underlying_addresses pools) /\ classify a = Ok None) ->
     get_tokens list_of_set self pools = Raise AttributeError).
Proof.
  intros Hset. split.
  - intros pre p post Hp. unfold get_tokens, underlying_addresses.
    rewrite !fold_left_app. cbn [fold_left]. rewrite Hp. reflexivity.
  - intros pools Hall (a & Ha & Hnone). unfold get_tokens. cbv zeta.
    destruct (@gather_total _ _ (fun addr => classify addr) (fun _ => True)
                (list_of_set (underlying_addresses pools)))
      as (toks & Hg & _).
    { intros x Hx. apply (proj1 (Hset _ _)) in Hx.
      destruct (Hall x Hx) as [o Ho]. eauto. }
    rewrite Hg. cbn [bind].
    apply (index_tokens_spec toks []).
    apply gather_ok_inv in Hg.
    apply (proj2 (Hset _ _)) in Ha.
    destruct (@Forall2_In_l _ _ _ _ _ a Hg Ha) as (o & Ho & Hcl).
    rewrite Hnone in Hcl. inversion Hcl; subst o. exact Ho.
Qed.

End GetTokens.

(** ** [get_pools] and the script *)

Section Pipeline.

Context {helpers : Helpers}.
Variable list_of_set : list string -> list string.
Variable self : Self.t.

Local Open Scope Q_scope.

Local Abbreviation has_metrics :=
  (fun p => match PoolInfo.metrics p with Some _ => true | None => false end).

(** The pools of [get_pools_info]: distinct addresses, no metrics yet. *)
Lemma get_pools_info_fresh (pool_count : Z) (pools : list PoolInfo.t) :
  get_pools_info self pool_count = Ok pools ->
  NoDup (map PoolInfo.address pools) /\
  forall p, In p pools -> PoolInfo.metrics p = None.
Proof.
  unfold get_pools_info. cbv zeta.
  set (fetched := map (get_pool_info self) (range pool_count)).
  intros H.
  apply bind_ok_inv in H. destruct H as (toks & _ & H).
  apply bind_ok_inv in H. destruct H as (d' & Ha & H).
  inversion H; subst pools; clear H.
  destruct (collect_pools_spec fetched) as (Hnd & Hfirst & _).
  split.
  - pose proof (assign_pool_tokens_kept _ _ Ha) as Hkept.
    destruct (kept_addresses Hkept) as [_ Haddr].
    + intros [k p] Hin. apply Hfirst in Hin. tauto.
    + rewrite Haddr. exact Hnd.
  - destruct (proj2 (assign_pool_tokens_spec toks (collect_pools fetched)) d' Ha)
      as [_ Hm].
    intros p Hp. unfold values in Hp. apply in_map_iff in Hp.
    destruct Hp as (e' & <- & He').
    destruct (@Forall2_In_r _ _ _ _ _ e' Hm He') as ([k p0] & He & Hsame).
    cbn in Hsame. rewrite Hsame.
    destruct (Hfirst k p0 He) as (_ & pre & post & Hsplit & _).
    assert (Hin : In p0 fetched)
      by (rewrite Hsplit; apply in_or_app; right; left; reflexivity).
    unfold fetched in Hin. apply in_map_iff in Hin.
    destruct Hin as (i & <- & _). apply get_pool_info_metrics.
Qed.

(** What [get_pools] is made of. *)
Lemma get_pools_inv (self' : Self.t) (pools : list PoolInfo.t) :
  get_pools list_of_set self = Ok (self', pools) ->
  exists pools0 tokens,
    get_pools_info self (Contract.poolLength (Self.contract self)) = Ok pools0 /\
    get_tokens list_of_set self pools0 = Ok tokens /\
    self' = Self.mk (Self.contract self) (Self.prices self) tokens /\
    Forall2 (fun p0 p => get_pool_metrics self' p0 = Ok p) pools0 pools.
Proof.
  unfold get_pools. cbv zeta. cbn [get_masterchef_data MasterChefData.pool_count].
  intros H.
  apply bind_ok_inv in H. destruct H as (pools0 & Hinfo & H).
  apply bind_ok_inv in H. destruct H as (tokens & Htokens & H).
  apply bind_ok_inv in H. destruct H as (pools1 & Hg & H).
  inversion H; subst self' pools1; clear H.
  apply gather_ok_inv in Hg.
  exists pools0, tokens. auto.
Qed.

(** The pools of [get_pools]: distinct addresses, a token on each, and
    metrics on UNI and ERC20 pools only. *)
Lemma get_pools_pools (self' : Self.t) (pools : list PoolInfo.t) :
  get_pools list_of_set self = Ok (self', pools) ->
  NoDup (map PoolInfo.address pools) /\
  forall p, In p pools ->
    exists tok,
      PoolInfo.pool_token p = Some tok /\
      (PoolInfo.metrics p <> None ->
       PoolToken.type tok = UNI \/ PoolToken.type tok = ERC20).
Proof.
  intros H. destruct (get_pools_inv H) as (pools0 & tokens & Hinfo & _ & _ & Hm).
  destruct (get_pools_info_fresh _ Hinfo) as [Hnd Hnone].
  assert (Hstep : forall p0 p,
            In p0 pools0 -> get_pool_metrics self' p0 = Ok p ->
            PoolInfo.address p = PoolInfo.address p0 /\
            exists tok,
              PoolInfo.pool_token p = Some tok /\
              (PoolInfo.metrics p <> None ->
               PoolToken.type tok = UNI \/ PoolToken.type tok = ERC20)).
  { intros p0 p Hp0 Hp.
    destruct (get_pool_metrics_inv _ _ Hp) as (tok & Htok & Hshape).
    destruct (PoolToken.type tok) eqn:Etype;
      try (subst p; split; [reflexivity|]; exists tok; split; [exact Htok|];
           rewrite (Hnone p0 Hp0); congruence);
      destruct Hshape as (m & _ & ->);
      (split; [reflexivity|]; exists tok; split; [exact Htok | auto]). }
  split.
  - replace (map PoolInfo.address pools) with (map PoolInfo.address pools0);
      [exact Hnd|].
    clear Hnd Hinfo H. revert Hnone Hstep.
    induction Hm as [|p0 p l0 l Hp _ IH]; intros Hnone Hstep; [reflexivity|].
    cbn. destruct (Hstep p0 p (or_introl eq_refl) Hp) as [-> _].
    rewrite IH; [reflexivity | |].
    + intros q Hq. apply Hnone. right. exact Hq.
    + intros q0 q Hq0. apply Hstep. right. exact Hq0.
  - intros p Hp.
    destruct (@Forall2_In_r _ _ _ _ _ p Hm Hp) as (p0 & Hp0 & Hrun).
    apply (Hstep p0 p Hp0 Hrun).
Qed.

(** X16: [get_pools] leaves the contract and the prices of the instance
    as they were and sets its tokens to the result of [get_tokens] on the
    pools of [get_pools_info].  The pools it returns have pairwise distinct
    addresses, each has a token, and only pools whose token is UNI or ERC20
    have metrics. *)
Theorem get_pools_result (self' : Self.t) (pools : list PoolInfo.t) :
  get_pools list_of_set self = Ok (self', pools) ->
  Self.contract self' = Self.contract self /\
  Self.prices self' = Self.prices self /\
  (exists pools0,
     get_pools_info self (Contract.poolLength (Self.contract self)) = Ok pools0 /\
     get_tokens list_of_set self pools0 = Ok (Self.tokens self') /\
     List.length pools = List.length pools0) /\
  NoDup (map PoolInfo.address pools) /\
  (forall p, In p pools ->
     exists tok,
       PoolInfo.pool_token p = Some tok /\
       (PoolInfo.metrics p <> None ->
        PoolToken.type tok = UNI \/ PoolToken.type tok = ERC20)).
Proof.
  intros H. destruct (get_pools_pools H) as [Hnd Hpools].
  destruct (get_pools_inv H) as (pools0 & tokens & Hinfo & Htokens & -> & Hm).
  repeat split; auto.
  exists pools0. repeat split; auto.
  symmetry. apply (Forall2_length Hm).
Qed.

(** One row per pool with metrics, when those are the pools that get a
    farm update. *)
Lemma rows_count (self' : Self.t) (md : MasterChefData.t)
  (pools : list PoolInfo.t) :
  (forall p, In p pools -> PoolInfo.metrics p <> None ->
             exists fu, farm_update_of self' p md = Ok (Some fu)) ->
  (forall p, In p pools -> PoolInfo.metrics p = None ->
             farm_update_of self' p md = Ok None) ->
  List.length
    (flat_map (fun p => match farm_update_of self' p md with
                        | Ok (Some fu) => [format_for_db fu]
                        | _ => []
                        end) pools) =
  List.length (filter has_metrics pools).
Proof.
  induction pools as [|p ps IH]; intros Hrated Hidle; [reflexivity|].
  cbn [flat_map filter]. rewrite length_app, IH.
  - destruct (PoolInfo.metrics p) eqn:Em.
    + destruct (Hrated p (or_introl eq_refl)) as [fu Hfu]; [congruence|].
      rewrite Hfu. reflexivity.
    + rewrite (Hidle p (or_introl eq_refl) Em). reflexivity.
  - intros q Hq. apply Hrated. right. exact Hq.
  - intros q Hq. apply Hidle. right. exact Hq.
Qed.

(** X17: when [get_pools] returns, the total of allocation points is not
    zero, the reward token has a price and no metrics report a staked TVL
    of zero, the script returns too: [calculate_supply_aprs] cannot meet a
    pool without a token there.  It makes one row for each pool that has
    metrics, and no other row. *)
Theorem main_returns_rows
  (self' : Self.t) (pools : list PoolInfo.t) (reward_price : Q) :
  get_pools list_of_set self = Ok (self', pools) ->
  Contract.totalAllocPoint (Self.contract self) <> 0%Z ->
  getitem (Self.prices self) (lower REWARD_TOKEN_ADDRESS) = Ok reward_price ->
  (forall p m, In p pools -> PoolInfo.metrics p = Some m ->
               ~ Metrics.staked_tvl m == 0) ->
  exists rows,
    main list_of_set self = Ok (pools, rows) /\
    List.length rows = List.length (filter has_metrics pools) /\
    forall p, In p pools -> PoolInfo.metrics p <> None ->
      exists fu,
        In (format_for_db fu) rows /\
        farm_update_of self' p (get_masterchef_data self) = Ok (Some fu).
Proof.
  intros Hget Htotal Hprice Htvl.
  destruct (get_pools_pools Hget) as [_ Hpools].
  destruct (get_pools_inv Hget) as (_ & tokens & _ & _ & Hself & _).
  assert (Hprice' : getitem (Self.prices self') (lower REWARD_TOKEN_ADDRESS) =
                    Ok reward_price) by (subst self'; exact Hprice).
  set (md := get_masterchef_data self).
  assert (Hrated : forall p, In p pools -> PoolInfo.metrics p <> None ->
                             exists fu, farm_update_of self' p md = Ok (Some fu)).
  { intros p Hp Hm. destruct (Hpools p Hp) as (tok & Htok & Htype).
    destruct (PoolInfo.metrics p) as [m|] eqn:Em; [|congruence].
    destruct (@farm_update_of_classified _ self' md p tok m reward_price)
      as (fu & Hfu & _); eauto. }
  assert (Hidle : forall p, In p pools -> PoolInfo.metrics p = None ->
                            farm_update_of self' p md = Ok None).
  { intros p Hp Hm. destruct (Hpools p Hp) as (tok & Htok & _).
    apply (farm_update_of_unrated self' md p Htok). left. exact Hm. }
  destruct (@supply_aprs_loop_total _ self' md pools) with (acc := @nil DbRow)
    as (rows & Hrows & _ & Hin).
  { intros p Hp. destruct (PoolInfo.metrics p) eqn:Em.
    - destruct (Hrated p Hp) as [fu Hfu]; [congruence | eauto].
    - rewrite (Hidle p Hp Em). eauto. }
  exists rows. split; [|split].
  - unfold main. cbv zeta. rewrite Hget. cbn [bind fst snd].
    fold md. unfold calculate_supply_aprs. rewrite Hrows. reflexivity.
  - apply supply_aprs_loop_rows in Hrows. destruct Hrows as [-> _].
    cbn [app]. apply rows_count; assumption.
  - intros p Hp Hm. destruct (Hrated p Hp Hm) as [fu Hfu].
    exists fu. split; [apply (Hin p fu Hp Hfu) | exact Hfu].
Qed.

End Pipeline.

(** * Instances of the further theorems on the sample state *)

Lemma list_of_set_sample_In (l : list string) (a : string) :
  In a (Sample.list_of_set l) <-> In a l.
Proof.
  unfold Sample.list_of_set.
  rewrite <- in_rev, nodup_In, <- in_rev. reflexivity.
Qed.

Section MoreWitnesses.

Local Open Scope string_scope.
Local Open Scope Q_scope.

Local Abbreviation m_pool fu := (FarmUpdate.pool fu).

Lemma calculate_supply_aprs_rows_in_pool_order_witness :
  exists rows,
    calculate_supply_aprs (helpers := Sample.helpers) Sample.self
      [Sample.pool_lp; Sample.pool_curve; Sample.pool_brl] Sample.md = Ok rows /\
    (List.length rows <= 3)%nat.
Proof.
  eexists. split; [reflexivity|].
  apply (proj1 (proj2 (@calculate_supply_aprs_rows_in_pool_order
                         Sample.helpers Sample.self Sample.md
                         [Sample.pool_lp; Sample.pool_curve; Sample.pool_brl]
                         _ eq_refl))).
Defined.

Lemma calculate_supply_aprs_first_exception_witness :
  calculate_supply_aprs (helpers := Sample.helpers) Sample.self
    ([Sample.pool_lp; Sample.pool_curve] ++ Sample.pool_empty :: [Sample.pool_brl])%list
    Sample.md = Raise ZeroDivisionError.
Proof.
  apply (@calculate_supply_aprs_first_exception Sample.helpers Sample.self
           Sample.md).
  - intros q [<-|[<-|[]]]; eexists; reflexivity.
  - reflexivity.
Defined.

Lemma calculate_supply_aprs_nothing_to_rate_witness :
  calculate_supply_aprs (helpers := Sample.helpers)
    (Self.mk Sample.contract [] [])
    [Sample.pool_curve; Sample.pool_unmeasured] Sample.md_no_alloc = Ok [].
Proof.
  apply (@calculate_supply_aprs_nothing_to_rate Sample.helpers).
  intros p [<-|[<-|[]]].
  - exists Sample.tok_3pool. split; [reflexivity|]. right. split; discriminate.
  - exists Sample.tok_brl. split; [reflexivity|]. left. reflexivity.
Defined.

Lemma calculate_supply_aprs_needs_total_and_price_witness :
  calculate_supply_aprs (helpers := Sample.helpers) Sample.self
    [Sample.pool_curve; Sample.pool_brl] Sample.md_no_alloc =
    Raise ZeroDivisionError /\
  calculate_supply_aprs (helpers := Sample.helpers)
    (Self.mk Sample.contract [] [])
    [Sample.pool_curve; Sample.pool_brl] Sample.md = Raise KeyError.
Proof.
  split.
  - apply (proj1 (@calculate_supply_aprs_needs_total_and_price Sample.helpers
                    Sample.self Sample.md_no_alloc
                    [Sample.pool_curve; Sample.pool_brl]
                    ltac:(intros p [<-|[<-|[]]]; discriminate)
                    (ex_intro _ Sample.pool_brl
                       (conj (or_intror (or_introl eq_refl))
                          (ex_intro _ Sample.tok_brl
                             (ex_intro _ _
                                (conj eq_refl
                                   (conj (or_intror eq_refl) eq_refl)))))))).
    reflexivity.
  - apply (proj2 (@calculate_supply_aprs_needs_total_and_price Sample.helpers
                    (Self.mk Sample.contract [] []) Sample.md
                    [Sample.pool_curve; Sample.pool_brl]
                    ltac:(intros p [<-|[<-|[]]]; discriminate)
                    (ex_intro _ Sample.pool_brl
                       (conj (or_intror (or_introl eq_refl))
                          (ex_intro _ Sample.tok_brl
                             (ex_intro _ _
                                (conj eq_refl
                                   (conj (or_intror eq_refl) eq_refl)))))))).
    + discriminate.
    + reflexivity.
Defined.

Lemma calculate_supply_aprs_reads_two_fields_witness :
  calculate_supply_aprs (helpers := Sample.helpers) Sample.self
    [Sample.pool_lp; Sample.pool_brl] Sample.md =
  calculate_supply_aprs (helpers := Sample.helpers) Sample.self
    [Sample.pool_lp; Sample.pool_brl]
    (MasterChefData.mk (MasterChefData.rewards_per_week Sample.md) 0 40 "0xother").
Proof.
  apply (@calculate_supply_aprs_reads_two_fields Sample.helpers); reflexivity.
Defined.

Lemma farm_update_describes_its_pool_witness :
  exists fu,
    farm_update_of (helpers := Sample.helpers_full) Sample.self_full
      Sample.pool_lp_full Sample.md = Ok (Some fu) /\
    SinglePool.tvl_staked (m_pool fu) = Some 1000%Z /\
    SinglePool.yield_type (m_pool fu) = LP_STAKE.
Proof.
  eexists. split; [reflexivity|].
  destruct (@farm_update_describes_its_pool Sample.helpers_full Sample.self_full
              Sample.md Sample.pool_lp_full _ eq_refl)
    as (tok & m & tvl & Htok & Hm & _ & _ & Hkind & _ & _ & Htvl & _).
  split; [reflexivity|].
  inversion Htok; subst tok. exact Hkind.
Defined.

Lemma farm_update_aprs_not_negative_witness :
  exists fu w,
    farm_update_of (helpers := Sample.helpers) Sample.self Sample.pool_brl
      Sample.md = Ok (Some fu) /\
    AprInfo.apr_weekly (SinglePool.apr_info (m_pool fu)) = Some w /\ 0 <= w.
Proof.
  eexists. eexists. split; [reflexivity|]. split; [reflexivity|].
  apply (proj1 (@farm_update_aprs_not_negative Sample.helpers Sample.self
                  Sample.md Sample.pool_brl _ eq_refl
                  ltac:(discriminate) ltac:(discriminate) ltac:(discriminate)
                  ltac:(intros price H; vm_compute in H; inversion H; discriminate)
                  ltac:(intros m H; inversion H; discriminate))).
  reflexivity.
Defined.

Lemma get_pools_info_size_and_metrics_witness :
  exists pools,
    get_pools_info (helpers := Sample.helpers) Sample.self 3 = Ok pools /\
    (List.length pools <= 3)%nat /\
    forall p, In p pools -> PoolInfo.metrics p = None.
Proof.
  eexists. split; [reflexivity|].
  destruct (@get_pools_info_size_and_metrics Sample.helpers Sample.self 3 _ eq_refl)
    as (Hlen & _ & Hm).
  split; [exact Hlen | exact Hm].
Defined.

Lemma get_pool_metrics_sets_metrics_only_witness :
  get_pool_metrics (helpers := Sample.helpers) Sample.self Sample.pool_unmeasured =
    Ok Sample.pool_brl /\
  get_pool_metrics (helpers := Sample.helpers) Sample.self Sample.pool_brl =
    Ok Sample.pool_brl.
Proof.
  split; [reflexivity|].
  apply (@get_pool_metrics_sets_metrics_only Sample.helpers Sample.self
           Sample.pool_unmeasured Sample.pool_brl).
  reflexivity.
Defined.

Lemma get_tokens_entries_witness :
  exists tokens,
    get_tokens (helpers := Sample.helpers_full) Sample.list_of_set Sample.self
      [Sample.pool_lp; Sample.pool_brl; Sample.pool_unclassified] = Ok tokens /\
    NoDup (keys tokens).
Proof.
  eexists. split; [reflexivity|].
  apply (@get_tokens_entries Sample.helpers_full Sample.list_of_set Sample.self
           [Sample.pool_lp; Sample.pool_brl; Sample.pool_unclassified] _
           list_of_set_sample_In eq_refl).
Defined.

Lemma get_tokens_missing_tokens_witness :
  get_tokens (helpers := Sample.helpers) Sample.list_of_set Sample.self
    [Sample.pool_lp] = Raise AttributeError.
Proof.
  apply (proj2 (@get_tokens_missing_tokens Sample.helpers Sample.list_of_set
                  Sample.self list_of_set_sample_In)).
  - intros a [<-|[<-|[]]]; eexists; reflexivity.
  - exists "0x11". split; [left|]; reflexivity.
Defined.

Lemma get_pools_result_witness :
  get_pools (helpers := Sample.helpers_full) Sample.list_of_set Sample.self =
    Ok (Sample.self_full, [Sample.pool_lp_full; Sample.pool_brl]) /\
  NoDup (map PoolInfo.address [Sample.pool_lp_full; Sample.pool_brl]).
Proof.
  split; [reflexivity|].
  apply (@get_pools_result Sample.helpers_full Sample.list_of_set Sample.self
           Sample.self_full [Sample.pool_lp_full; Sample.pool_brl] eq_refl).
Defined.

Lemma main_returns_rows_witness :
  exists rows,
    main (helpers := Sample.helpers_full) Sample.list_of_set Sample.self =
      Ok ([Sample.pool_lp_full; Sample.pool_brl], rows) /\
    List.length rows = 2%nat.
Proof.
  destruct (@main_returns_rows Sample.helpers_full Sample.list_of_set Sample.self
              Sample.self_full [Sample.pool_lp_full; Sample.pool_brl] (1 # 2)
              eq_refl)
    as (rows & Hmain & Hlen & _).
  - discriminate.
  - reflexivity.
  - intros p m [<-|[<-|[]]] Hm; inversion Hm; discriminate.
  - exists rows. split; [exact Hmain | exact Hlen].
Defined.

End MoreWitnesses.
